(** * Repository files as MCP resources: a model of [src/resources/files.ts]

    The development follows the TypeScript source function by function.
    Strings are Rocq strings (a JavaScript string is read as its UTF-8 byte
    sequence: the separators ['/'] and ['.'] are single bytes that occur in no
    multi-byte sequence, so splitting on them is exact).  Remote calls are a
    record of functions returning a completion (a value or a thrown object);
    [console.error] is a writer effect; [async]/[await] is sequential
    composition in the monad [M]. *)

From Stdlib Require Import ZArith Ascii.
From stdpp Require Import gmap strings list pretty.

Local Open Scope Z_scope.

(** ** JavaScript primitives used by the source *)
Module Js.

(** [String.prototype.split] with a one-character separator.  The result
    is never the empty array: [split sep ""] is [[""]]. *)
Fixpoint split (sep : ascii) (s : string) : list string :=
  match s with
  | EmptyString => [EmptyString]
  | String c rest =>
      if decide (c = sep) then EmptyString :: split sep rest
      else match split sep rest with
           | seg :: segs => String c seg :: segs
           | [] => [String c EmptyString]
           end
  end.

(** [Array.prototype.pop]: the last element, [undefined] on the empty
    array (the array itself is dropped by every caller). *)
Definition pop (xs : list string) : option string := last xs.

Definition toLowerCase_char (c : ascii) : ascii :=
  let n := N_of_ascii c in
  if ((65 <=? n) && (n <=? 90))%N then ascii_of_N (n + 32) else c.

(** [String.prototype.toLowerCase].  Only [A]-[Z] are mapped.  Outside
    ASCII, JavaScript lower-cases the Kelvin sign to [k] and U+0130 to [i]
    followed by a combining mark, and nothing else to text with an ASCII
    letter; no key looked up below contains a [k] or a combining mark, so
    the lookups agree. *)
Fixpoint toLowerCase (s : string) : string :=
  match s with
  | EmptyString => EmptyString
  | String c rest => String (toLowerCase_char c) (toLowerCase rest)
  end.

(** [String.prototype.startsWith] and [String.prototype.includes]. *)
Fixpoint startsWith (s prefix : string) : bool :=
  match prefix, s with
  | EmptyString, _ => true
  | String _ _, EmptyString => false
  | String p prefix', String c s' =>
      if decide (c = p) then startsWith s' prefix' else false
  end.

Fixpoint includes (s sub : string) : bool :=
  startsWith s sub
  || match s with
     | EmptyString => false
     | String _ s' => includes s' sub
     end.

(** The characters of a string, for membership statements. *)
Fixpoint chars (s : string) : list ascii :=
  match s with
  | EmptyString => []
  | String c rest => c :: chars rest
  end.

(** Values a property read on an object literal with string values can
    produce: an own string, or a member inherited from
    [Object.prototype] (a function or the prototype object itself). *)
Inductive value :=
| VString (s : string)
| VInherited (member : string).

(** The property names of [Object.prototype]. *)
Definition Object_prototype : list string :=
  [ "constructor"; "__defineGetter__"; "__defineSetter__";
    "hasOwnProperty"; "__lookupGetter__"; "__lookupSetter__";
    "isPrototypeOf"; "propertyIsEnumerable"; "toString"; "valueOf";
    "__proto__"; "toLocaleString" ].

(** [obj[key]] on an object literal: own properties first, then the
    prototype chain, [undefined] ([None]) when neither has the key. *)
Definition get (obj : gmap string string) (key : string) : option value :=
  match obj !! key with
  | Some v => Some (VString v)
  | None => if decide (key ∈ Object_prototype)
            then Some (VInherited key) else None
  end.

(** Truthiness: the empty string is falsy, objects and functions are
    truthy. *)
Definition truthy (v : value) : bool :=
  match v with
  | VString s => negb (bool_decide (s = ""))
  | VInherited _ => true
  end.

(** [a || b] where [a] may be [undefined]. *)
Definition or_else (a : option value) (b : value) : value :=
  match a with
  | Some v => if truthy v then v else b
  | None => b
  end.

(** [!s] on an optional string: [undefined] and the empty string are
    falsy. *)
Definition falsy (s : option string) : bool :=
  match s with
  | Some v => bool_decide (v = "")
  | None => true
  end.

(** [n || 0] on an optional number: [undefined] and [0] give [0]. *)
Definition num_or_0 (n : option Z) : Z :=
  match n with
  | Some v => if bool_decide (v = 0) then 0 else v
  | None => 0
  end.

(** [s ?? d]: only [undefined] takes the default. *)
Definition nullish_or (s : option string) (d : string) : string :=
  match s with
  | Some v => v
  | None => d
  end.

(** [s || d] on an optional string. *)
Definition str_or (s : option string) (d : string) : string :=
  match s with
  | Some v => if bool_decide (v = "") then d else v
  | None => d
  end.

End Js.

(** ** Effects: exceptions and the diagnostic log *)

(** What a [catch] clause can receive: an [Error] instance with its
    message, or any other thrown value with its [String(...)] conversion.
    The remote client only throws [Error] instances. *)
Inductive thrown :=
| ErrorObject (message : string)
| NonError (text : string).

(** [error instanceof Error ? error.message : String(error)] *)
Definition describe (error : thrown) : string :=
  match error with
  | ErrorObject message => message
  | NonError text => text
  end.

Inductive completion (A : Type) :=
| Normal (a : A)
| Throw (e : thrown).
Arguments Normal {A} a.
Arguments Throw {A} e.

#[global] Instance completion_ret : MRet completion := λ A a, Normal a.
#[global] Instance completion_bind : MBind completion := λ A B f c,
  match c with
  | Normal a => f a
  | Throw e => Throw e
  end.

(** One call of [console.error]: a text, or a text followed by the caught
    object. *)
Inductive logLine :=
| Line (text : string)
| LineWith (text : string) (e : thrown).

(** An [async] function body: its completion and the lines it logged. *)
Definition M (A : Type) : Type := completion A * list logLine.

#[global] Instance M_ret : MRet M := λ A a, (Normal a, []).
#[global] Instance M_bind : MBind M := λ A B f m,
  match m with
  | (Normal a, log) => let '(r, log') := f a in (r, log ++ log')
  | (Throw e, log) => (Throw e, log)
  end.

Definition throw {A} (e : thrown) : M A := (Throw e, []).

(** [await] of a remote call. *)
Definition await {A} (c : completion A) : M A := (c, []).

Definition console_error (text : string) : M unit := (Normal tt, [Line text]).
Definition console_error_with (text : string) (e : thrown) : M unit :=
  (Normal tt, [LineWith text e]).

(** [try { body } catch (error) { handler }] *)
Definition try_catch {A} (body : M A) (handler : thrown → M A) : M A :=
  match body with
  | (Normal a, log) => (Normal a, log)
  | (Throw e, log) => let '(r, log') := handler e in (r, log ++ log')
  end.

Definition result {A} (m : M A) : completion A := fst m.
Definition logged {A} (m : M A) : list logLine := snd m.

(** ** The remote service, as the source calls it through [octokit] *)

Record RepoInfo := { default_branch : string }.
Record GitRef := { object_sha : string }.
Record GitCommit := { tree_sha : string }.

(** One entry of the recursive tree listing; every field is optional in
    the client's response type.  A size is a byte count, an integer. *)
Record TreeItem := {
  item_path : option string;
  item_type : option string;
  item_size : option Z;
}.

(** [tree.tree] *)
Record GitTree := { tree_tree : list TreeItem }.

(** The [data] of [repos.getContent]: an array for a directory, otherwise
    one object with a [type] and, for files, a [content]. *)
Inductive ContentData :=
| ContentArray (entries : list string)
| ContentObject (type : string) (content : option string).

Record Octokit := {
  repos_get : string → string → completion RepoInfo;
  git_getRef : string → string → string → completion GitRef;
  git_getCommit : string → string → string → completion GitCommit;
  git_getTree : string → string → string → string → completion GitTree;
  repos_getContent : string → string → string → completion ContentData;
}.

(** What the source takes from its platform: the client constructor
    [new Octokit({ auth })] and
    [Buffer.from(s, "base64").toString("utf-8")]. *)
Class Platform := {
  Octokit_new : string → Octokit;
  Buffer_base64_utf8 : string → string;
}.

Record URL := { href : string }.

Record Env := {
  SOURCE_REPOSITORY_NAME : option string;
  BRANCH_NAME : option string;
}.

(** ** The content record returned by a resource handler *)
Module Contents.

Record t := {
  uri : string;
  title : string;
  text : string;
  mimeType : Js.value;
  size : Z;
}.

End Contents.

(** ** [class FileResource] *)
Module FileResource.

Record t := {
  accessToken : string;
  owner : string;
  repo : string;
  filePath : string;
  fileName : string;
  fileSize : Z;
  name : string;
  uri : string;
  title : string;
  description : string;
  size : Z;
}.

Definition new (accessToken owner repo filePath fileName : string)
    (fileSize : Z) : t :=
  {| accessToken := accessToken;
     owner := owner;
     repo := repo;
     filePath := filePath;
     fileName := fileName;
     fileSize := fileSize;
     name := filePath;
     uri := "github://file/" +:+ filePath;
     title := fileName;
     description :=
       "File: " +:+ filePath +:+ " (" +:+ pretty fileSize +:+ " bytes)";
     size := fileSize |}.

Definition mimeTypes : gmap string string :=
  list_to_map
    [ ("js", "text/javascript"); ("ts", "text/typescript");
      ("jsx", "text/jsx"); ("tsx", "text/tsx");
      ("json", "application/json"); ("md", "text/markdown");
      ("txt", "text/plain"); ("html", "text/html"); ("css", "text/css");
      ("py", "text/x-python"); ("java", "text/x-java"); ("c", "text/x-c");
      ("cpp", "text/x-c++"); ("rs", "text/x-rust"); ("go", "text/x-go");
      ("rb", "text/x-ruby"); ("php", "text/x-php");
      ("sh", "text/x-shellscript"); ("yaml", "text/yaml");
      ("yml", "text/yaml"); ("xml", "text/xml"); ("svg", "image/svg+xml");
      ("png", "image/png"); ("jpg", "image/jpeg"); ("jpeg", "image/jpeg");
      ("gif", "image/gif"); ("pdf", "application/pdf") ].

Definition octet_stream : string := "application/octet-stream".

Definition getMimeType (filename : string) : Js.value :=
  let ext := Js.toLowerCase <$> Js.pop (Js.split "." filename) in
  Js.or_else (Js.get mimeTypes (Js.str_or ext "")) (Js.VString octet_stream).

(** [get mimeType()] *)
Definition mimeType (self : t) : Js.value := getMimeType (fileName self).

(** [handler(uri)]; the value is the [contents] array of the returned
    object. *)
Definition handler {platform : Platform} (self : t) (uri : URL)
    : M (list Contents.t) :=
  try_catch
    (let octokit := Octokit_new (accessToken self) in
     data ← await (repos_getContent octokit (owner self) (repo self)
                     (filePath self));
     match data with
     | ContentObject type content =>
         if bool_decide (type = "file") then
           let content := Buffer_base64_utf8 (Js.str_or content "") in
           mret [ {| Contents.uri := href uri;
                     Contents.title := fileName self;
                     Contents.text := content;
                     Contents.mimeType := mimeType self;
                     Contents.size := fileSize self |} ]
         else
           throw (ErrorObject ("Path " +:+ filePath self +:+ " is not a file"))
     | ContentArray _ =>
         throw (ErrorObject ("Path " +:+ filePath self +:+ " is not a file"))
     end)
    (λ error, throw (ErrorObject ("Failed to read file: " +:+ describe error))).

End FileResource.

(** ** [listFiles] *)

Record TreeEntry := {
  entry_path : string;
  entry_name : string;
  entry_size : Z;
}.

(** The filter callback: [item.type === "blob" && item.path]. *)
Definition isBlobWithPath (item : TreeItem) : bool :=
  bool_decide (item_type item = Some "blob") && negb (Js.falsy (item_path item)).

(** The map callback.  Reading [split] off an absent path is a
    [TypeError]; the filter before it keeps that from happening. *)
Definition toEntry (item : TreeItem) : completion TreeEntry :=
  match item_path item with
  | Some path =>
      Normal {| entry_path := path;
                entry_name := Js.nullish_or (Js.pop (Js.split "/" path)) "unknown";
                entry_size := Js.num_or_0 (item_size item) |}
  | None =>
      Throw (ErrorObject "Cannot read properties of undefined (reading 'split')")
  end.

Definition listFiles (octokit : Octokit) (owner repo : string)
    (branch : option string) : M (list TreeEntry) :=
  try_catch
    (targetBranch ←
       (if Js.falsy branch then
          repoInfo ← await (repos_get octokit owner repo);
          mret (default_branch repoInfo)
        else mret (Js.nullish_or branch ""));
     ref ← await (git_getRef octokit owner repo ("heads/" +:+ targetBranch));
     commit ← await (git_getCommit octokit owner repo (object_sha ref));
     tree ← await (git_getTree octokit owner repo (tree_sha commit) "true");
     await (mapM toEntry (filter isBlobWithPath (tree_tree tree))))
    (λ error,
       console_error_with "Error fetching files from tree:" error;;
       throw error).

(** ** [createFileResources] *)

(** The greedy run [[^/]*]: the longest prefix without ['/'], and what
    follows it. *)
Fixpoint notSlashRun (s : string) : string * string :=
  match s with
  | EmptyString => (EmptyString, EmptyString)
  | String c rest =>
      if decide (c = "/"%char) then (EmptyString, s)
      else let '(run, after) := notSlashRun rest in (String c run, after)
  end.

(** [s.match(/^([^/]+)\/([^/]+)$/)]: the two capture groups, or [null].
    No backtracking can change the outcome: a run of [[^/]] ends at the
    first ['/'] or at the end of the input. *)
Definition repoMatch (s : string) : option (string * string) :=
  let '(owner, after) := notSlashRun s in
  if bool_decide (owner = "") then None
  else match after with
       | EmptyString => None
       | String c after1 =>
           if decide (c = "/"%char) then
             let '(repo, after2) := notSlashRun after1 in
             if bool_decide (repo = "") then None
             else if bool_decide (after2 = "") then Some (owner, repo)
             else None
           else None
       end.

Definition createFileResources {platform : Platform}
    (accessToken : string) (env : Env) : M (list FileResource.t) :=
  try_catch
    (if Js.falsy (SOURCE_REPOSITORY_NAME env) then
       console_error "SOURCE_REPOSITORY_NAME environment variable is not set";;
       mret []
     else
       let repository := Js.nullish_or (SOURCE_REPOSITORY_NAME env) "" in
       match repoMatch repository with
       | None =>
           console_error ("Invalid repository name format: " +:+ repository
                          +:+ ". Expected format: owner/repo");;
           mret []
       | Some (owner, repo) =>
           console_error ("Fetching files from repository: " +:+ owner
                          +:+ "/" +:+ repo);;
           let octokit := Octokit_new accessToken in
           files ← listFiles octokit owner repo (BRANCH_NAME env);
           if bool_decide (length files = 0%nat) then
             console_error ("No files found in repository " +:+ owner +:+ "/"
                            +:+ repo +:+ " with the specified filters");;
             mret []
           else
             console_error ("Found " +:+ pretty (length files)
                            +:+ " files in repository " +:+ owner +:+ "/"
                            +:+ repo +:+ " after filtering");;
             mret (map (λ file,
                          FileResource.new accessToken owner repo
                            (entry_path file) (entry_name file)
                            (entry_size file))
                       files)
       end)
    (λ error,
       console_error ("Failed to create file resources: " +:+ describe error);;
       mret []).

(** ** [registerResources] ([src/resources/index.ts]) *)

(** The content-request callback handed to the host:
    [resource.handler.bind(resource)]. *)
Definition ResourceHandler : Type := URL → M (list Contents.t).

(** The host's registration surface [server.resource(name, uri, callback)],
    which belongs to the host server: from a server state the call
    completes or throws, and leaves a server state. *)
Class McpServer (S : Type) :=
  server_resource : S → string → string → ResourceHandler → completion unit * S.

(** [for (const x of xs) { body }] over the server state; a throw leaves
    the loop. *)
Fixpoint for_of {A S : Type} (xs : list A)
    (body : A → S → completion unit * S) (s : S) : completion unit * S :=
  match xs with
  | [] => (Normal tt, s)
  | x :: rest =>
      match body x s with
      | (Normal _, s') => for_of rest body s'
      | (Throw e, s') => (Throw e, s')
      end
  end.

(** The completion, the server state left behind, and the lines logged. *)
Definition registerResources {platform : Platform} {S : Type}
    {host : McpServer S} (server : S) (accessToken : string) (env : Env)
    : (completion unit * S) * list logLine :=
  match createFileResources accessToken env with
  | (Normal fileResources, log) =>
      (for_of fileResources
         (λ resource s,
            server_resource s (FileResource.name resource)
              (FileResource.uri resource) (FileResource.handler resource))
         server,
       log)
  | (Throw e, log) => ((Throw e, server), log)
  end.

(** ** Specification-level notions, stated independently of the code *)

(** [seg] is the final path segment of [p]: it holds no ['/'], and [p] is
    either [seg] itself or some directory part, a ['/'], and [seg]. *)
Definition LastSegment (sep : ascii) (p seg : string) : Prop :=
  (sep ∉ Js.chars seg) ∧ (p = seg ∨ ∃ dir, p = (dir +:+ String sep seg)).

(** A repository identifier of the form [owner/name]: one separator, both
    sides non-empty. *)
Definition OwnerSlashName (s owner repo : string) : Prop :=
  s = (owner +:+ "/" +:+ repo)
  ∧ owner ≠ "" ∧ repo ≠ ""
  ∧ ("/"%char ∉ Js.chars owner) ∧ ("/"%char ∉ Js.chars repo).

(** The malformed identifiers: no separator, more than one, an empty
    owner, or an empty name. *)
Inductive Malformed : string → Prop :=
| missing_separator s : ("/"%char ∉ Js.chars s) → Malformed s
| multiple_separators a b c : Malformed (a +:+ "/" +:+ b +:+ "/" +:+ c)
| empty_owner repo : Malformed ("/" +:+ repo)
| empty_name owner : Malformed (owner +:+ "/").

(** The identifier is absent (or empty) or malformed. *)
Definition MissingOrMalformed (identifier : option string) : Prop :=
  match identifier with
  | None => True
  | Some s => Malformed s
  end.

(** The branch whose tree is listed: the configured one, or the
    repository's default branch when none is configured. *)
Inductive TargetBranch (octokit : Octokit) (owner repo : string)
  : option string → string → Prop :=
| configured_branch b :
    b ≠ "" → TargetBranch octokit owner repo (Some b) b
| default_of_repository branch info :
    Js.falsy branch = true →
    repos_get octokit owner repo = Normal info →
    TargetBranch octokit owner repo branch (default_branch info).

(** The four remote reads succeed and end in the tree listing [t]. *)
Inductive RemoteTree (octokit : Octokit) (owner repo : string)
    (branch : option string) (t : GitTree) : Prop :=
| remote_tree targetBranch ref commit :
    TargetBranch octokit owner repo branch targetBranch →
    git_getRef octokit owner repo ("heads/" +:+ targetBranch) = Normal ref →
    git_getCommit octokit owner repo (object_sha ref) = Normal commit →
    git_getTree octokit owner repo (tree_sha commit) "true" = Normal t →
    RemoteTree octokit owner repo branch t.

(** One of the remote reads fails with [e] (network failure,
    authentication rejection, repository or branch not found, ...). *)
Inductive RemoteFailure (octokit : Octokit) (owner repo : string)
    (branch : option string) (e : thrown) : Prop :=
| repository_lookup_fails :
    Js.falsy branch = true →
    repos_get octokit owner repo = Throw e →
    RemoteFailure octokit owner repo branch e
| branch_lookup_fails targetBranch :
    TargetBranch octokit owner repo branch targetBranch →
    git_getRef octokit owner repo ("heads/" +:+ targetBranch) = Throw e →
    RemoteFailure octokit owner repo branch e
| commit_lookup_fails targetBranch ref :
    TargetBranch octokit owner repo branch targetBranch →
    git_getRef octokit owner repo ("heads/" +:+ targetBranch) = Normal ref →
    git_getCommit octokit owner repo (object_sha ref) = Throw e →
    RemoteFailure octokit owner repo branch e
| tree_listing_fails targetBranch ref commit :
    TargetBranch octokit owner repo branch targetBranch →
    git_getRef octokit owner repo ("heads/" +:+ targetBranch) = Normal ref →
    git_getCommit octokit owner repo (object_sha ref) = Normal commit →
    git_getTree octokit owner repo (tree_sha commit) "true" = Throw e →
    RemoteFailure octokit owner repo branch e.

(** [item] is a plain file with a non-empty path. *)
Definition BlobWithPath (item : TreeItem) : Prop :=
  item_type item = Some "blob"
  ∧ ∃ p, item_path item = Some p ∧ p ≠ "".

(** [e] is the Tree Entry of [item]: its path, the final segment of the
    path as leaf name, and its reported size, or 0 when unreported. *)
Definition EntryOf (item : TreeItem) (e : TreeEntry) : Prop :=
  item_path item = Some (entry_path e)
  ∧ LastSegment "/" (entry_path e) (entry_name e)
  ∧ entry_size e = default 0 (item_size item).

(** The listing of a tree: the entries of its plain files, in order, and
    nothing for any other item. *)
Inductive Listing : list TreeItem → list TreeEntry → Prop :=
| listing_nil : Listing [] []
| listing_keep item items e es :
    BlobWithPath item → EntryOf item e → Listing items es →
    Listing (item :: items) (e :: es)
| listing_skip item items es :
    ¬ BlobWithPath item → Listing items es →
    Listing (item :: items) es.

(** The response is not one single file. *)
Definition NotASingleFile (data : ContentData) : Prop :=
  match data with
  | ContentArray _ => True
  | ContentObject type _ => type ≠ "file"
  end.

(** The one remote read a handler makes for its descriptor. *)
Definition contentRead {platform : Platform} (self : FileResource.t)
    : completion ContentData :=
  repos_getContent (Octokit_new (FileResource.accessToken self))
    (FileResource.owner self) (FileResource.repo self)
    (FileResource.filePath self).

(** What [split] returns: a first segment without separator, and, when
    more segments follow, a last one that is the text after the last
    separator. *)
Definition SplitShape (sep : ascii) (s : string) (segs : list string) : Prop :=
  match segs with
  | [] => False
  | seg0 :: more =>
      (sep ∉ Js.chars seg0) ∧
      match last more with
      | None => more = [] ∧ s = seg0
      | Some seg =>
          (sep ∉ Js.chars seg) ∧ ∃ dir, s = (dir +:+ String sep seg)
      end
  end.

(** ** A reference platform, used to exercise the theorems *)

(** A base64 decoder in the manner of [Buffer.from(s, "base64")]:
    characters outside the alphabet are skipped and decoding stops at the
    padding.  The decoded bytes are the text. *)
Module Base64.

Definition sextet (c : ascii) : option N :=
  let n := N_of_ascii c in
  if ((65 <=? n) && (n <=? 90))%N then Some (n - 65)%N
  else if ((97 <=? n) && (n <=? 122))%N then Some (n - 71)%N
  else if ((48 <=? n) && (n <=? 57))%N then Some (n + 4)%N
  else if (n =? 43)%N then Some 62%N
  else if (n =? 47)%N then Some 63%N
  else None.

Fixpoint sextets (s : string) : list N :=
  match s with
  | EmptyString => []
  | String c rest =>
      if decide (c = "="%char) then []
      else match sextet c with
           | Some v => v :: sextets rest
           | None => sextets rest
           end
  end.

Fixpoint bytes (vs : list N) : string :=
  match vs with
  | a :: b :: c :: d :: rest =>
      String (ascii_of_N (a * 4 + b / 16))
        (String (ascii_of_N ((b mod 16) * 16 + c / 4))
           (String (ascii_of_N ((c mod 4) * 64 + d)) (bytes rest)))
  | [a; b; c] =>
      String (ascii_of_N (a * 4 + b / 16))
        (String (ascii_of_N ((b mod 16) * 16 + c / 4)) EmptyString)
  | [a; b] => String (ascii_of_N (a * 4 + b / 16)) EmptyString
  | _ => EmptyString
  end%N.

Definition decode (s : string) : string := bytes (sextets s).

End Base64.

Module Demo.

Definition notFound {A} : completion A := Throw (ErrorObject "Not Found").

Definition items : list TreeItem :=
  [ {| item_path := Some "README.md"; item_type := Some "blob";
       item_size := Some 12 |};
    {| item_path := Some "src"; item_type := Some "tree";
       item_size := None |};
    {| item_path := Some "src/lib/index.ts"; item_type := Some "blob";
       item_size := None |};
    {| item_path := Some "vendor/dep"; item_type := Some "commit";
       item_size := None |};
    {| item_path := Some "docs/"; item_type := Some "blob";
       item_size := Some 0 |} ].

(** A service holding the one repository [octo/demo], with default
    branch [main]. *)
Definition octokit : Octokit :=
  {| repos_get owner repo :=
       if bool_decide ((owner, repo) = ("octo", "demo"))
       then Normal {| default_branch := "main" |} else notFound;
     git_getRef owner repo ref :=
       if bool_decide ((owner, repo, ref) = ("octo", "demo", "heads/main"))
       then Normal {| object_sha := "c0ffee" |} else notFound;
     git_getCommit owner repo sha :=
       if bool_decide (sha = "c0ffee")
       then Normal {| tree_sha := "7ea" |} else notFound;
     git_getTree owner repo sha recursive :=
       if bool_decide (sha = "7ea")
       then Normal {| tree_tree := items |} else notFound;
     repos_getContent owner repo path :=
       if bool_decide (path = "README.md")
       then Normal (ContentObject "file" (Some "aGVsbG8gd29ybGQK"))
       else if bool_decide (path = "empty.txt")
       then Normal (ContentObject "file" None)
       else if bool_decide (path = "src")
       then Normal (ContentArray ["src/lib"])
       else notFound |}.

Definition platform : Platform :=
  {| Octokit_new _ := octokit; Buffer_base64_utf8 := Base64.decode |}.

Definition env : Env :=
  {| SOURCE_REPOSITORY_NAME := Some "octo/demo"; BRANCH_NAME := None |}.

Definition readme : FileResource.t :=
  FileResource.new "token" "octo" "demo" "README.md" "README.md" 12.

Definition missing : FileResource.t :=
  FileResource.new "token" "octo" "demo" "gone.txt" "gone.txt" 3.

End Demo.

(** Further services and a host, used to exercise the properties of the
    enumeration and of the registration. *)
Module Fixture.

(** A service that answers for every repository with default branch
    [main] and the tree [items]; a content read finds a file exactly at
    the paths listed as plain files. *)
Definition octokit (items : list TreeItem) : Octokit :=
  {| repos_get _ _ := Normal {| default_branch := "main" |};
     git_getRef _ _ ref :=
       if bool_decide (ref = "heads/main")
       then Normal {| object_sha := "c0ffee" |} else Demo.notFound;
     git_getCommit _ _ _ := Normal {| tree_sha := "7ea" |};
     git_getTree _ _ _ _ := Normal {| tree_tree := items |};
     repos_getContent _ _ path :=
       if bool_decide (Some path ∈ item_path <$> filter isBlobWithPath items)
       then Normal (ContentObject "file" (Some "aGk="))
       else Demo.notFound |}.

Definition platform (items : list TreeItem) : Platform :=
  {| Octokit_new _ := octokit items; Buffer_base64_utf8 := Base64.decode |}.

(** A service that cannot be reached. *)
Definition unreachable : Octokit :=
  {| repos_get _ _ := Throw (ErrorObject "fetch failed");
     git_getRef _ _ _ := Throw (ErrorObject "fetch failed");
     git_getCommit _ _ _ := Throw (ErrorObject "fetch failed");
     git_getTree _ _ _ _ := Throw (ErrorObject "fetch failed");
     repos_getContent _ _ _ := Throw (ErrorObject "fetch failed") |}.

Definition offline : Platform :=
  {| Octokit_new _ := unreachable; Buffer_base64_utf8 := Base64.decode |}.

(** The demo service without its repository lookup. *)
Definition no_lookup : Octokit :=
  {| repos_get _ _ := Throw (ErrorObject "Forbidden");
     git_getRef := git_getRef Demo.octokit;
     git_getCommit := git_getCommit Demo.octokit;
     git_getTree := git_getTree Demo.octokit;
     repos_getContent := repos_getContent Demo.octokit |}.

Definition directories : list TreeItem :=
  [ {| item_path := Some "src"; item_type := Some "tree"; item_size := None |};
    {| item_path := Some "vendor/dep"; item_type := Some "commit";
       item_size := None |};
    {| item_path := Some ""; item_type := Some "blob"; item_size := Some 1 |};
    {| item_path := None; item_type := Some "blob"; item_size := Some 2 |} ].

Definition twice : list TreeItem :=
  [ {| item_path := Some "a.md"; item_type := Some "blob";
       item_size := Some 1 |};
    {| item_path := Some "a.md"; item_type := Some "blob";
       item_size := Some 2 |};
    {| item_path := Some "b.md"; item_type := Some "blob";
       item_size := Some 3 |} ].

(** A host that keeps the registered (name, URI) pairs and, like the MCP
    server of the SDK, refuses a URI that is registered already. *)
Definition registry : Type := list (string * string).

Definition strict : McpServer registry := λ server name uri _,
  if bool_decide (uri ∈ server.*2)
  then (Throw (ErrorObject ("Resource " +:+ uri +:+ " is already registered")),
        server)
  else (Normal tt, server ++ [(name, uri)]).

(** A host that accepts every registration. *)
Definition lenient : McpServer registry := λ server name uri _,
  (Normal tt, server ++ [(name, uri)]).

End Fixture.

(** * Properties *)

(** ** The model on the reference platform *)

Example getMimeType_ts :
  FileResource.getMimeType "index.ts" = Js.VString "text/typescript".
Proof. vm_compute. reflexivity. Qed.

Example getMimeType_upper_case :
  FileResource.getMimeType "LOGO.PNG" = Js.VString "image/png".
Proof. vm_compute. reflexivity. Qed.

Example getMimeType_makefile :
  FileResource.getMimeType "Makefile" = Js.VString "application/octet-stream".
Proof. vm_compute. reflexivity. Qed.

Example getMimeType_trailing_dot :
  FileResource.getMimeType "notes." = Js.VString "application/octet-stream".
Proof. vm_compute. reflexivity. Qed.

Example repoMatch_examples :
  repoMatch "octo/demo" = Some ("octo", "demo")
  ∧ repoMatch "octo" = None
  ∧ repoMatch "octo/demo/x" = None
  ∧ repoMatch "/demo" = None
  ∧ repoMatch "octo/" = None
  ∧ repoMatch "" = None.
Proof. repeat split; vm_compute; reflexivity. Qed.

Example enumerate_demo :
  FileResource.uri
    <$> match result (createFileResources (platform := Demo.platform)
                        "token" Demo.env) with
        | Normal rs => rs
        | Throw _ => []
        end
  = [ "github://file/README.md"; "github://file/src/lib/index.ts";
      "github://file/docs/" ]
  ∧ logged (createFileResources (platform := Demo.platform) "token" Demo.env)
    = [ Line "Fetching files from repository: octo/demo";
        Line "Found 3 files in repository octo/demo after filtering" ].
Proof. split; vm_compute; reflexivity. Qed.

(** An unknown repository: the first remote read fails, [listFiles] logs
    and rethrows, and the outer boundary logs and returns nothing. *)
Example enumerate_unknown_repository :
  createFileResources (platform := Demo.platform) "token"
    {| SOURCE_REPOSITORY_NAME := Some "octo/none"; BRANCH_NAME := None |}
  = (Normal [],
     [ Line "Fetching files from repository: octo/none";
       LineWith "Error fetching files from tree:" (ErrorObject "Not Found");
       Line "Failed to create file resources: Not Found" ]).
Proof. vm_compute. reflexivity. Qed.

(** A configured branch skips the default-branch lookup. *)
Example enumerate_unknown_branch :
  result (listFiles Demo.octokit "octo" "demo" (Some "dev"))
  = Throw (ErrorObject "Not Found")
  ∧ RemoteFailure Demo.octokit "octo" "demo" (Some "dev")
      (ErrorObject "Not Found").
Proof.
  split; [vm_compute; reflexivity|].
  apply (branch_lookup_fails _ _ _ _ _ "dev"); [by constructor|reflexivity].
Qed.

Example fetch_directory :
  result (FileResource.handler (platform := Demo.platform)
            (FileResource.new "token" "octo" "demo" "src" "src" 0)
            {| href := "github://file/src" |})
  = Throw (ErrorObject "Failed to read file: Path src is not a file").
Proof. vm_compute. reflexivity. Qed.

(** ** Strings *)
Section strings.

Implicit Types (s p seg dir : string) (c sep : ascii).

Lemma app_cons c s1 s2 : String c s1 +:+ s2 = String c (s1 +:+ s2).
Proof. reflexivity. Qed.

Lemma app_nil_l s : "" +:+ s = s.
Proof. reflexivity. Qed.

Lemma chars_app s1 s2 : Js.chars (s1 +:+ s2) = Js.chars s1 ++ Js.chars s2.
Proof.
  induction s1 as [|c s1 IH]; [done|].
  rewrite app_cons. simpl. by rewrite IH.
Qed.

Lemma chars_nil s : Js.chars s = [] → s = "".
Proof. by destruct s. Qed.

Lemma app_nil_r s : s +:+ "" = s.
Proof. induction s as [|c s IH]; [done|]. by rewrite app_cons, IH. Qed.

Lemma app_assoc s1 s2 s3 : (s1 +:+ s2) +:+ s3 = s1 +:+ s2 +:+ s3.
Proof. induction s1 as [|c s1 IH]; [done|]. by rewrite !app_cons, IH. Qed.

Lemma sep_in_middle sep dir seg : sep ∈ Js.chars (dir +:+ String sep seg).
Proof. rewrite chars_app. simpl. set_solver. Qed.

Lemma split_shape sep s : SplitShape sep s (Js.split sep s).
Proof.
  induction s as [|c rest IH]; simpl.
  - split; [set_solver|done].
  - destruct (Js.split sep rest) as [|seg0 more] eqn:Hsplit; [done|].
    destruct IH as [Hseg0 IH].
    case_decide as Hc.
    + subst c. split; [set_solver|]. rewrite last_cons.
      destruct (last more) as [seg|].
      * destruct IH as [Hseg [dir ->]]. split; [done|].
        exists (String sep dir). reflexivity.
      * destruct IH as [_ ->]. split; [done|]. exists "". reflexivity.
    + split; [simpl; apply not_elem_of_cons; split; [congruence|done]|].
      destruct (last more) as [seg|].
      * destruct IH as [Hseg [dir ->]]. split; [done|].
        exists (String c dir). reflexivity.
      * destruct IH as [-> ->]. done.
Qed.

Lemma split_nonempty sep s : Js.split sep s ≠ [].
Proof. pose proof (split_shape sep s) as H. by destruct (Js.split sep s). Qed.

(** [pop] after [split] is always defined. *)
Lemma pop_split_defined sep s : is_Some (Js.pop (Js.split sep s)).
Proof.
  unfold Js.pop. pose proof (split_nonempty sep s).
  destruct (Js.split sep s) as [|x l] using rev_ind; [done|].
  rewrite last_snoc. by eexists.
Qed.

Lemma pop_split_last_segment sep s seg :
  Js.pop (Js.split sep s) = Some seg → LastSegment sep s seg.
Proof.
  unfold Js.pop. pose proof (split_shape sep s) as H.
  destruct (Js.split sep s) as [|seg0 more]; [done|].
  destruct H as [Hseg0 H]. rewrite last_cons.
  destruct (last more) as [seg'|].
  - intros [= <-]. destruct H as [? [dir ->]]. split; [done|]. right. by exists dir.
  - intros [= <-]. destruct H as [_ ->]. split; [done|]. by left.
Qed.

Lemma LastSegment_unique sep p seg1 seg2 :
  LastSegment sep p seg1 → LastSegment sep p seg2 → seg1 = seg2.
Proof.
  intros [H1 [->|[d1 ->]]] [H2 [E|[d2 E]]].
  - done.
  - subst seg1. destruct H1. apply sep_in_middle.
  - subst seg2. destruct H2. apply sep_in_middle.
  - revert d2 E. induction d1 as [|c d1 IH]; intros [|c2 d2]; simpl; intros [= E].
    + done.
    + subst. destruct H1. apply sep_in_middle.
    + subst. destruct H2. apply sep_in_middle.
    + subst. eauto.
Qed.

Lemma last_segment_pop_split sep s seg :
  LastSegment sep s seg ↔ Js.pop (Js.split sep s) = Some seg.
Proof.
  split; [|apply pop_split_last_segment].
  intros H. destruct (pop_split_defined sep s) as [seg' Hpop].
  rewrite Hpop. f_equal.
  eapply LastSegment_unique; [|done]. by apply pop_split_last_segment.
Qed.

(** The final segment is empty exactly for the empty path and for paths
    that end in the separator. *)
Lemma last_segment_empty sep p :
  LastSegment sep p "" ↔ p = "" ∨ ∃ dir, p = dir +:+ String sep "".
Proof.
  unfold LastSegment. simpl. split.
  - intros [_ H]. done.
  - intros H. split; [set_solver|done].
Qed.

Lemma startsWith_app s1 s2 : Js.startsWith (s1 +:+ s2) s1 = true.
Proof.
  induction s1 as [|c s1 IH]; simpl; [by destruct s2|].
  by rewrite decide_True.
Qed.

Lemma includes_startsWith s sub :
  Js.startsWith s sub = true → Js.includes s sub = true.
Proof. intros H. destruct s; cbn [Js.includes]; by rewrite H. Qed.

Lemma includes_app s1 s2 s3 : Js.includes (s1 +:+ s2 +:+ s3) s2 = true.
Proof.
  induction s1 as [|c s1 IH].
  - rewrite app_nil_l. apply includes_startsWith, startsWith_app.
  - rewrite app_cons. simpl. rewrite IH. apply orb_true_r.
Qed.

End strings.

(** ** The repository identifier pattern *)
Section identifier.

Implicit Types (s owner repo run after : string).

Lemma notSlashRun_spec s run after :
  notSlashRun s = (run, after) →
  s = (run +:+ after) ∧ ("/"%char ∉ Js.chars run)
  ∧ (after = "" ∨ ∃ rest, after = String "/" rest).
Proof.
  revert run after. induction s as [|c rest IH]; intros run after; simpl.
  - intros [= <- <-]. split; [done|]. split; [set_solver|by left].
  - case_decide as Hc.
    + intros [= <- <-]. subst c. split; [done|]. split; [set_solver|].
      right. by eexists.
    + destruct (notSlashRun rest) as [run' after'] eqn:E.
      intros [= <- <-]. destruct (IH _ _ eq_refl) as (-> & Hrun & Hafter).
      split; [done|]. split; [|done].
      simpl. apply not_elem_of_cons. done.
Qed.

Lemma notSlashRun_all run :
  "/"%char ∉ Js.chars run → notSlashRun run = (run, "").
Proof.
  induction run as [|c run IH]; simpl; [done|].
  intros [Hc Hrun]%not_elem_of_cons. rewrite decide_False by done.
  by rewrite IH.
Qed.

Lemma notSlashRun_stop run rest :
  "/"%char ∉ Js.chars run →
  notSlashRun (run +:+ String "/" rest) = (run, String "/" rest).
Proof.
  induction run as [|c run IH]; [done|].
  intros [Hc Hrun]%not_elem_of_cons. rewrite app_cons. simpl.
  rewrite decide_False by done. by rewrite IH.
Qed.

(** The pattern matches exactly the identifiers of the form
    [owner/name], and captures the two sides. *)
Lemma repoMatch_Some s owner repo :
  repoMatch s = Some (owner, repo) ↔ OwnerSlashName s owner repo.
Proof.
  unfold repoMatch, OwnerSlashName. split.
  - destruct (notSlashRun s) as [o after] eqn:E1.
    apply notSlashRun_spec in E1 as (-> & Ho & _).
    case_bool_decide as Hne; [done|].
    destruct after as [|c after1]; [done|].
    case_decide as Hc; [subst c|done].
    destruct (notSlashRun after1) as [r after2] eqn:E2.
    apply notSlashRun_spec in E2 as (-> & Hr & _).
    case_bool_decide as Hr0; [done|].
    case_bool_decide as Ha2; [subst after2|done].
    intros [= <- <-]. by rewrite app_nil_r.
  - intros (-> & Ho & Hr & Hso & Hsr).
    change (owner +:+ "/" +:+ repo) with (owner +:+ String "/" repo).
    rewrite notSlashRun_stop by done.
    rewrite bool_decide_false by done. rewrite decide_True by done.
    rewrite notSlashRun_all by done.
    rewrite bool_decide_false by done. by rewrite bool_decide_true.
Qed.

Lemma Malformed_no_match s : Malformed s → repoMatch s = None.
Proof.
  intros H. destruct (repoMatch s) as [[owner repo]|] eqn:E; [|done].
  apply repoMatch_Some in E as (Hs & Ho & Hr & Hso & Hsr).
  assert (LastSegment "/" s repo) as Hlast.
  { split; [done|]. right. by exists owner. }
  exfalso. destruct H as [s Hmiss|a b c|r|o].
  - apply Hmiss. rewrite Hs. apply sep_in_middle.
  - assert (∃ dir, a +:+ "/" +:+ b +:+ "/" +:+ c = dir +:+ String "/" repo
                   ∧ "/"%char ∈ Js.chars dir) as (dir & Hdir & Hin).
    { destruct (pop_split_defined "/" c) as [seg Hseg].
      apply pop_split_last_segment in Hseg as Hc.
      assert (LastSegment "/" (a +:+ "/" +:+ b +:+ "/" +:+ c) seg) as Hseg'.
      { destruct Hc as [? [->|[d ->]]]; (split; [done|]); right.
        - exists (a +:+ "/" +:+ b). by rewrite !app_assoc.
        - exists (a +:+ "/" +:+ b +:+ "/" +:+ d). by rewrite !app_assoc. }
      rewrite (LastSegment_unique _ _ _ _ Hlast Hseg').
      destruct Hc as [? [->|[d ->]]].
      - exists (a +:+ "/" +:+ b). split; [by rewrite !app_assoc|].
        apply sep_in_middle.
      - exists (a +:+ "/" +:+ b +:+ "/" +:+ d). split; [by rewrite !app_assoc|].
        apply sep_in_middle. }
    rewrite Hs in Hdir. change (owner +:+ "/" +:+ repo)
      with (owner +:+ String "/" repo) in Hdir.
    assert (owner = dir) as ->; [|done].
    clear -Hdir Hsr. revert dir Hdir.
    induction owner as [|x owner IH]; intros [|y dir];
      rewrite ?app_cons, ?app_nil_l; intros E.
    + done.
    + injection E as _ E. destruct Hsr. rewrite E. apply sep_in_middle.
    + injection E as _ E. destruct Hsr. rewrite <-E. apply sep_in_middle.
    + injection E as -> E. f_equal. eauto.
  - destruct owner as [|x owner]; [done|].
    rewrite app_cons in Hs. change ("/" +:+ r) with (String "/" r) in Hs.
    injection Hs as <- _. apply Hso. simpl. set_solver.
  - assert (LastSegment "/" (o +:+ "/") "") as Hempty.
    { apply last_segment_empty. right. by exists o. }
    by rewrite (LastSegment_unique _ _ _ _ Hlast Hempty) in Hr.
Qed.

Lemma no_match_Malformed s : repoMatch s = None → Malformed s.
Proof.
  unfold repoMatch.
  destruct (notSlashRun s) as [o after] eqn:E1.
  apply notSlashRun_spec in E1 as (-> & Ho & Hafter).
  case_bool_decide as Hne.
  - subst o. intros _. rewrite app_nil_l.
    destruct Hafter as [->|[rest ->]].
    + apply missing_separator. set_solver.
    + apply (empty_owner rest).
  - destruct Hafter as [->|[after1 ->]].
    + intros _. rewrite app_nil_r. by apply missing_separator.
    + rewrite decide_True by done.
      destruct (notSlashRun after1) as [r after2] eqn:E2.
      apply notSlashRun_spec in E2 as (-> & Hr & Hafter2).
      case_bool_decide as Hr0.
      * subst r. intros _. rewrite app_nil_l.
        destruct Hafter2 as [->|[x ->]].
        -- apply (empty_name o).
        -- apply (multiple_separators o "" x).
      * case_bool_decide as Ha2; [done|]. intros _.
        destruct Hafter2 as [->|[x ->]]; [done|].
        apply (multiple_separators o r x).
Qed.

End identifier.

(** ** Effects *)
Section effects.

Context {A B : Type}.

Lemma result_bind (m : M A) (f : A → M B) :
  result (m ≫= f)
  = match result m with Normal a => result (f a) | Throw e => Throw e end.
Proof. destruct m as [[a|e] log]; simpl; [|done]. by destruct (f a). Qed.

Lemma result_try_catch (body : M A) (handler : thrown → M A) :
  result (try_catch body handler)
  = match result body with Normal a => Normal a | Throw e => result (handler e) end.
Proof. destruct body as [[a|e] log]; simpl; [done|]. by destruct (handler e). Qed.

Lemma logged_bind (m : M A) (f : A → M B) :
  logged (m ≫= f)
  = match result m with
    | Normal a => logged m ++ logged (f a)
    | Throw e => logged m
    end.
Proof. destruct m as [[a|e] log]; simpl; [|done]. by destruct (f a). Qed.

Lemma logged_try_catch (body : M A) (handler : thrown → M A) :
  logged (try_catch body handler)
  = match result body with
    | Normal a => logged body
    | Throw e => logged body ++ logged (handler e)
    end.
Proof. destruct body as [[a|e] log]; simpl; [done|]. by destruct (handler e). Qed.

Lemma result_await (c : completion A) : result (await c) = c.
Proof. done. Qed.

End effects.

(** ** The tree listing *)
Section listing.

Implicit Types (item : TreeItem) (items : list TreeItem) (e : TreeEntry).

Lemma isBlobWithPath_spec item : isBlobWithPath item ↔ BlobWithPath item.
Proof.
  unfold isBlobWithPath, BlobWithPath, Js.falsy.
  rewrite andb_True, bool_decide_spec.
  destruct (item_path item) as [p|]; simpl.
  - rewrite negb_True, bool_decide_spec. split.
    + intros [Hty Hp]. split; [done|]. by exists p.
    + intros [Hty (p' & [= <-] & Hp)]. done.
  - split; [intros [_ []]|intros [_ (p & Hp & _)]; done].
Qed.

Lemma num_or_0_default (n : option Z) : Js.num_or_0 n = default 0 n.
Proof. destruct n as [v|]; simpl; [|done]. by case_bool_decide. Qed.

Lemma toEntry_blob item :
  BlobWithPath item → ∃ e, toEntry item = Normal e ∧ EntryOf item e.
Proof.
  intros [_ (p & Hp & _)]. unfold toEntry, EntryOf. rewrite Hp.
  eexists. split; [done|]. simpl. split; [done|].
  split; [|apply num_or_0_default].
  destruct (pop_split_defined "/" p) as [seg Hseg]. rewrite Hseg. simpl.
  by apply pop_split_last_segment.
Qed.

(** After the filter, the map callback never throws, and what comes out
    is the listing of the tree. *)
Lemma entries_of_listing items :
  ∃ es, mapM toEntry (filter isBlobWithPath items) = Normal es
        ∧ Listing items es.
Proof.
  induction items as [|item items (es & IH & Hes)].
  - exists []. split; [done|constructor].
  - rewrite filter_cons. case_decide as Hkeep.
    + apply isBlobWithPath_spec in Hkeep as Hblob.
      destruct (toEntry_blob item Hblob) as (e & He & Hof).
      exists (e :: es). simpl. rewrite He. simpl. rewrite IH.
      split; [done|]. by constructor.
    + exists es. split; [done|]. apply listing_skip; [|done].
      by rewrite <-isBlobWithPath_spec.
Qed.

Lemma Listing_elem_of items es e :
  Listing items es →
  e ∈ es → ∃ item, item ∈ items ∧ BlobWithPath item ∧ EntryOf item e.
Proof.
  induction 1 as [|item items e' es Hb Hof _ IH|item items es Hb _ IH].
  - by intros ?%elem_of_nil.
  - intros [->|Hin]%elem_of_cons.
    + exists item. split; [left|done].
    + destruct (IH Hin) as (i & ? & ?). exists i. split; [by right|done].
  - intros Hin. destruct (IH Hin) as (i & ? & ?). exists i. split; [by right|done].
Qed.

Lemma Listing_complete items es item :
  Listing items es →
  item ∈ items → BlobWithPath item → ∃ e, e ∈ es ∧ EntryOf item e.
Proof.
  induction 1 as [|item' items e' es Hb Hof _ IH|item' items es Hb _ IH].
  - by intros ?%elem_of_nil.
  - intros [->|Hin]%elem_of_cons Hblob.
    + exists e'. split; [left|done].
    + destruct (IH Hin Hblob) as (e & ? & ?). exists e. split; [by right|done].
  - intros [->|Hin]%elem_of_cons Hblob; [done|].
    destruct (IH Hin Hblob) as (e & ? & ?). by exists e.
Qed.

Lemma Listing_length items es :
  Listing items es → length es = length (filter isBlobWithPath items).
Proof.
  induction 1 as [|item items e' es Hb Hof _ IH|item items es Hb _ IH];
    [done|..]; rewrite filter_cons.
  - rewrite decide_True by by apply isBlobWithPath_spec. simpl. by rewrite IH.
  - rewrite decide_False; [done|]. by rewrite isBlobWithPath_spec.
Qed.

End listing.

(** ** [listFiles] against the remote reads *)
Section listFiles.

Variables (octokit : Octokit) (owner repo : string) (branch : option string).

Lemma remote_outcome :
  (∃ t, RemoteTree octokit owner repo branch t)
  ∨ (∃ e, RemoteFailure octokit owner repo branch e).
Proof.
  assert ((∃ b, TargetBranch octokit owner repo branch b)
          ∨ (∃ e, RemoteFailure octokit owner repo branch e)) as [[b Hb]|?];
    [| |by right].
  { destruct (Js.falsy branch) eqn:Hf.
    - destruct (repos_get octokit owner repo) as [info|e] eqn:Hget.
      + left. eexists. by eapply default_of_repository.
      + right. exists e. by apply repository_lookup_fails.
    - left. destruct branch as [b|]; [|done]. exists b. constructor.
      simpl in Hf. by apply bool_decide_eq_false in Hf. }
  destruct (git_getRef octokit owner repo ("heads/" +:+ b)) as [ref|e] eqn:Href;
    [|right; exists e; by eapply branch_lookup_fails].
  destruct (git_getCommit octokit owner repo (object_sha ref)) as [commit|e]
    eqn:Hcommit; [|right; exists e; by eapply commit_lookup_fails].
  destruct (git_getTree octokit owner repo (tree_sha commit) "true") as [t|e]
    eqn:Htree; [|right; exists e; by eapply tree_listing_fails].
  left. exists t. by econstructor.
Qed.

(** The first step of [listFiles] yields the target branch. *)
Lemma target_branch_step b :
  TargetBranch octokit owner repo branch b →
  (if Js.falsy branch
   then repoInfo ← await (repos_get octokit owner repo);
        mret (default_branch repoInfo)
   else mret (Js.nullish_or branch "")) = (Normal b, []).
Proof.
  intros [b' Hb'|br info Hf Hget].
  - simpl. by rewrite bool_decide_false.
  - rewrite Hf, Hget. done.
Qed.

Lemma listFiles_on_tree t :
  RemoteTree octokit owner repo branch t →
  result (listFiles octokit owner repo branch)
  = mapM toEntry (filter isBlobWithPath (tree_tree t)).
Proof.
  intros [b ref commit Hb Href Hcommit Htree].
  unfold listFiles. rewrite (target_branch_step b Hb).
  rewrite result_try_catch. simpl. rewrite Href. simpl.
  rewrite Hcommit. simpl. rewrite Htree. simpl.
  by destruct (mapM _ _).
Qed.

Lemma listFiles_on_failure e :
  RemoteFailure octokit owner repo branch e →
  result (listFiles octokit owner repo branch) = Throw e
  ∧ logged (listFiles octokit owner repo branch)
    = [LineWith "Error fetching files from tree:" e].
Proof.
  unfold listFiles.
  intros [Hf Hget|b Hb Href|b ref Hb Href Hcommit
         |b ref commit Hb Href Hcommit Htree].
  - rewrite Hf, Hget. done.
  - rewrite (target_branch_step b Hb). simpl. rewrite Href. done.
  - rewrite (target_branch_step b Hb). simpl. rewrite Href. simpl.
    rewrite Hcommit. done.
  - rewrite (target_branch_step b Hb). simpl. rewrite Href. simpl.
    rewrite Hcommit. simpl. rewrite Htree. done.
Qed.

(** [listFiles] returns exactly when the remote reads end in a tree, and
    then returns the listing of that tree. *)
Lemma listFiles_Normal es :
  result (listFiles octokit owner repo branch) = Normal es →
  ∃ t, RemoteTree octokit owner repo branch t ∧ Listing (tree_tree t) es.
Proof.
  intros Hres. destruct remote_outcome as [[t Ht]|[e He]].
  - exists t. split; [done|]. rewrite (listFiles_on_tree t Ht) in Hres.
    destruct (entries_of_listing (tree_tree t)) as (es' & Hes' & HL).
    congruence.
  - apply listFiles_on_failure in He as [He _]. congruence.
Qed.

(** [listFiles] throws exactly when one of the remote reads fails, and
    rethrows that failure unchanged. *)
Lemma listFiles_Throw e :
  result (listFiles octokit owner repo branch) = Throw e ↔
  RemoteFailure octokit owner repo branch e.
Proof.
  split; [|by intros [? _]%listFiles_on_failure].
  intros Hres. destruct remote_outcome as [[t Ht]|[e' He]].
  - rewrite (listFiles_on_tree t Ht) in Hres.
    destruct (entries_of_listing (tree_tree t)) as (es' & Hes' & HL).
    congruence.
  - apply listFiles_on_failure in He as Hthrow. destruct Hthrow as [Hthrow _].
    congruence.
Qed.

End listFiles.

(** ** [createFileResources], outcome by outcome *)
Section createFileResources.

Context {platform : Platform}.
Variables (accessToken : string) (env : Env).

Lemma createFileResources_unconfigured :
  Js.falsy (SOURCE_REPOSITORY_NAME env) = true →
  createFileResources accessToken env
  = (Normal [],
     [Line "SOURCE_REPOSITORY_NAME environment variable is not set"]).
Proof. intros Hf. unfold createFileResources. by rewrite Hf. Qed.

Lemma createFileResources_no_match s :
  SOURCE_REPOSITORY_NAME env = Some s → s ≠ "" → repoMatch s = None →
  createFileResources accessToken env
  = (Normal [],
     [Line ("Invalid repository name format: " +:+ s
            +:+ ". Expected format: owner/repo")]).
Proof.
  intros Hs Hne Hm. unfold createFileResources. rewrite Hs. simpl.
  rewrite bool_decide_false by done. by rewrite Hm.
Qed.

Lemma createFileResources_on_listing s owner repo es :
  SOURCE_REPOSITORY_NAME env = Some s → repoMatch s = Some (owner, repo) →
  result (listFiles (Octokit_new accessToken) owner repo (BRANCH_NAME env))
  = Normal es →
  result (createFileResources accessToken env)
  = Normal (map (λ file, FileResource.new accessToken owner repo
                           (entry_path file) (entry_name file)
                           (entry_size file)) es).
Proof.
  intros Hs Hm Hes. unfold createFileResources. rewrite Hs. simpl.
  assert (s ≠ "") as Hne by (by intros ->).
  rewrite bool_decide_false by done. rewrite Hm.
  destruct (listFiles _ _ _ _) as [[es'|e'] log]; simpl in Hes;
    [injection Hes as ->|done].
  simpl. case_bool_decide as Hlen; simpl; [|done].
  by destruct es.
Qed.

Lemma createFileResources_on_failure s owner repo e :
  SOURCE_REPOSITORY_NAME env = Some s → repoMatch s = Some (owner, repo) →
  result (listFiles (Octokit_new accessToken) owner repo (BRANCH_NAME env))
  = Throw e →
  result (createFileResources accessToken env) = Normal []
  ∧ Line ("Failed to create file resources: " +:+ describe e)
    ∈ logged (createFileResources accessToken env).
Proof.
  intros Hs Hm He. unfold createFileResources. rewrite Hs. simpl.
  assert (s ≠ "") as Hne by (by intros ->).
  rewrite bool_decide_false by done. rewrite Hm.
  destruct (listFiles _ _ _ _) as [[es'|e'] log]; simpl in He;
    [done|injection He as ->].
  simpl. split; [done|].
  apply elem_of_cons. right. apply elem_of_app. right. left.
Qed.

(** Every descriptor returned comes from one entry of the listing. *)
Lemma createFileResources_elem_of rs r :
  result (createFileResources accessToken env) = Normal rs → r ∈ rs →
  ∃ s owner repo es file,
    SOURCE_REPOSITORY_NAME env = Some s
    ∧ repoMatch s = Some (owner, repo)
    ∧ result (listFiles (Octokit_new accessToken) owner repo (BRANCH_NAME env))
      = Normal es
    ∧ file ∈ es
    ∧ r = FileResource.new accessToken owner repo
            (entry_path file) (entry_name file) (entry_size file).
Proof.
  intros Hres Hr.
  destruct (Js.falsy (SOURCE_REPOSITORY_NAME env)) eqn:Hf.
  { rewrite (createFileResources_unconfigured Hf) in Hres.
    injection Hres as <-. by apply elem_of_nil in Hr. }
  destruct (SOURCE_REPOSITORY_NAME env) as [s|] eqn:Hs; [|done].
  simpl in Hf. apply bool_decide_eq_false in Hf.
  destruct (repoMatch s) as [[owner repo]|] eqn:Hm.
  2:{ rewrite (createFileResources_no_match s Hs Hf Hm) in Hres.
      injection Hres as <-. by apply elem_of_nil in Hr. }
  destruct (result (listFiles (Octokit_new accessToken) owner repo
                      (BRANCH_NAME env))) as [es|e] eqn:Hes.
  - rewrite (createFileResources_on_listing s owner repo es Hs Hm Hes) in Hres.
    injection Hres as <-. apply list_elem_of_fmap in Hr as (file & -> & Hfile).
    by exists s, owner, repo, es, file.
  - destruct (createFileResources_on_failure s owner repo e Hs Hm Hes) as [Hnil _].
    rewrite Hnil in Hres. injection Hres as <-. by apply elem_of_nil in Hr.
Qed.

End createFileResources.

(** ** [FileResource.handler], outcome by outcome *)
Section handler.

Context {platform : Platform}.
Variables (self : FileResource.t) (uri : URL).

Lemma handler_on_file content :
  contentRead self = Normal (ContentObject "file" content) →
  FileResource.handler self uri
  = (Normal [ {| Contents.uri := href uri;
                 Contents.title := FileResource.fileName self;
                 Contents.text := Buffer_base64_utf8 (Js.str_or content "");
                 Contents.mimeType :=
                   FileResource.getMimeType (FileResource.fileName self);
                 Contents.size := FileResource.fileSize self |} ], []).
Proof.
  unfold contentRead, FileResource.handler. intros ->. done.
Qed.

Lemma handler_on_other data :
  contentRead self = Normal data → NotASingleFile data →
  FileResource.handler self uri
  = (Throw (ErrorObject ("Failed to read file: Path "
                         +:+ FileResource.filePath self +:+ " is not a file")),
     []).
Proof.
  unfold contentRead, FileResource.handler. intros -> Hnot.
  destruct data as [entries|type content]; simpl; [done|].
  simpl in Hnot. by rewrite bool_decide_false.
Qed.

Lemma handler_on_failure e :
  contentRead self = Throw e →
  FileResource.handler self uri
  = (Throw (ErrorObject ("Failed to read file: " +:+ describe e)), []).
Proof.
  unfold contentRead, FileResource.handler. intros ->. done.
Qed.

Lemma single_file_or_not data :
  (∃ content, data = ContentObject "file" content) ∨ NotASingleFile data.
Proof.
  destruct data as [entries|type content]; [by right|].
  destruct (decide (type = "file")) as [->|Hne]; [left; by eexists|by right].
Qed.

End handler.

(** ** Media type inference *)
Section getMimeType.

Import FileResource.

Lemma toLowerCase_char_idemp c :
  Js.toLowerCase_char (Js.toLowerCase_char c) = Js.toLowerCase_char c.
Proof. by destruct c as [[] [] [] [] [] [] [] []]. Qed.

Lemma toLowerCase_idemp s : Js.toLowerCase (Js.toLowerCase s) = Js.toLowerCase s.
Proof.
  induction s as [|c s IH]; simpl; [done|].
  by rewrite toLowerCase_char_idemp, IH.
Qed.

Lemma mimeTypes_truthy k v : mimeTypes !! k = Some v → v ≠ "".
Proof.
  intros Hk%elem_of_list_to_map_2.
  repeat (apply elem_of_cons in Hk as [[= -> ->]|Hk]; [done|]).
  by apply elem_of_nil in Hk.
Qed.

(** The result depends on the file name only through its lower-cased
    last ['.']-separated segment; for a name without ['.'] that segment is
    the whole name. *)
Lemma getMimeType_last_segment filename seg :
  LastSegment "." filename seg →
  getMimeType filename
  = Js.or_else (Js.get mimeTypes (Js.toLowerCase seg)) (Js.VString octet_stream).
Proof.
  intros Hseg%last_segment_pop_split. unfold getMimeType. rewrite Hseg.
  cbn [fmap option_fmap option_map Js.str_or].
  case_bool_decide as He; [|done]. by rewrite He.
Qed.

(** X10.  For a file name whose last ['.']-separated segment, lower-cased,
    is a key of the table, the mapped type is returned: in any case of the
    letters, and whatever dots and directories precede it. *)
Lemma getMimeType_table filename seg v :
  LastSegment "." filename seg →
  mimeTypes !! Js.toLowerCase seg = Some v →
  getMimeType filename = Js.VString v.
Proof.
  intros Hseg Hv. rewrite (getMimeType_last_segment _ _ Hseg).
  unfold Js.get. rewrite Hv. simpl.
  rewrite bool_decide_false; [done|]. by eapply mimeTypes_truthy.
Qed.

(** X11.  The case of the extension does not matter, for extensions in
    the table and outside it. *)
Lemma getMimeType_case_insensitive base ext :
  "."%char ∉ Js.chars ext →
  getMimeType (base +:+ "." +:+ ext)
  = getMimeType (base +:+ "." +:+ Js.toLowerCase ext).
Proof.
  intros Hext.
  assert ("."%char ∉ Js.chars (Js.toLowerCase ext)) as Hlow.
  { clear -Hext. induction ext as [|c ext IH]; simpl in *; [done|].
    apply not_elem_of_cons in Hext as [Hc Hext].
    apply not_elem_of_cons. split; [|by apply IH].
    clear -Hc. by destruct c as [[] [] [] [] [] [] [] []]. }
  rewrite (getMimeType_last_segment _ ext),
    (getMimeType_last_segment _ (Js.toLowerCase ext)).
  - by rewrite toLowerCase_idemp.
  - split; [done|]. right. by exists base.
  - split; [done|]. right. by exists base.
Qed.

(** X12.  An extension that is neither in the table nor a member of
    [Object.prototype] gives the generic type. *)
Lemma getMimeType_unrecognized filename seg :
  LastSegment "." filename seg →
  mimeTypes !! Js.toLowerCase seg = None →
  Js.toLowerCase seg ∉ Js.Object_prototype →
  getMimeType filename = Js.VString octet_stream.
Proof.
  intros Hseg Hnone Hproto. rewrite (getMimeType_last_segment _ _ Hseg).
  unfold Js.get. rewrite Hnone. by rewrite decide_False.
Qed.

(** X13.  The only values other than a media type string the inference
    can give are the two members of [Object.prototype] a lower-cased key
    can name: [constructor] and [__proto__]. *)
Lemma getMimeType_inherited filename member :
  getMimeType filename = Js.VInherited member →
  member = "constructor" ∨ member = "__proto__".
Proof.
  destruct (pop_split_defined "." filename) as [seg Hseg].
  apply pop_split_last_segment in Hseg.
  rewrite (getMimeType_last_segment _ _ Hseg). unfold Js.get.
  destruct (mimeTypes !! Js.toLowerCase seg) as [v|] eqn:Hv; simpl.
  { by case_bool_decide. }
  case_decide as Hin; [|done]. simpl. intros [= <-].
  pose proof (toLowerCase_idemp seg) as Hid.
  unfold Js.Object_prototype in Hin.
  repeat (apply elem_of_cons in Hin as [Hin|Hin];
          [rewrite Hin in Hid; first [by left|by right|by vm_compute in Hid]|]).
  by apply elem_of_nil in Hin.
Qed.

End getMimeType.

(** C2 (the code departs from the claim).  A file name without any ['.']
    that spells a table key is given that key's type although it has no
    extension, and an extension naming a member of [Object.prototype] is
    answered with that inherited member instead of the generic type. *)
Theorem getMimeType_extensionless_and_inherited :
  ("."%char ∉ Js.chars "go")
  ∧ FileResource.getMimeType "go" = Js.VString "text/x-go"
  ∧ FileResource.mimeTypes !! "constructor" = None
  ∧ FileResource.getMimeType "a.constructor" = Js.VInherited "constructor".
Proof.
  split; [|split; [|split]].
  - simpl. rewrite !not_elem_of_cons. repeat split; try discriminate.
    apply not_elem_of_nil.
  - vm_compute. reflexivity.
  - vm_compute. reflexivity.
  - vm_compute. reflexivity.
Qed.

(** * The claims *)

(** C1.  Whatever the credential, the configuration and the outcome of the
    remote reads, [createFileResources] returns a sequence and never
    throws; when a remote read fails, the failure is caught at the outer
    boundary, logged, and the empty sequence is returned. *)
Theorem createFileResources_never_throws {platform : Platform}
    (accessToken : string) (env : Env) :
  ∃ rs, result (createFileResources accessToken env) = Normal rs
    ∧ ∀ s owner repo e,
        SOURCE_REPOSITORY_NAME env = Some s →
        repoMatch s = Some (owner, repo) →
        RemoteFailure (Octokit_new accessToken) owner repo (BRANCH_NAME env) e →
        rs = []
        ∧ Line ("Failed to create file resources: " +:+ describe e)
          ∈ logged (createFileResources accessToken env).
Proof.
  destruct (Js.falsy (SOURCE_REPOSITORY_NAME env)) eqn:Hf.
  { rewrite (createFileResources_unconfigured _ _ Hf). exists []. split; [done|].
    intros s owner repo e Hs Hm _. rewrite Hs in Hf. simpl in Hf.
    apply bool_decide_eq_true in Hf. by subst s. }
  destruct (SOURCE_REPOSITORY_NAME env) as [s|] eqn:Hs; [|done].
  simpl in Hf. apply bool_decide_eq_false in Hf.
  destruct (repoMatch s) as [[owner repo]|] eqn:Hm.
  2:{ rewrite (createFileResources_no_match _ _ s Hs Hf Hm). exists [].
      split; [done|]. intros ? ? ? ? [= <-]. congruence. }
  destruct (result (listFiles (Octokit_new accessToken) owner repo
                      (BRANCH_NAME env))) as [es|e] eqn:Hes.
  - eexists. split; [by eapply createFileResources_on_listing|].
    intros ? ? ? e [= <-] Hm' Hfail. rewrite Hm in Hm'. injection Hm' as <- <-.
    apply listFiles_Throw in Hfail. congruence.
  - destruct (createFileResources_on_failure _ _ s owner repo e Hs Hm Hes)
      as [Hnil Hlog].
    exists []. split; [done|].
    intros ? ? ? e' [= <-] Hm' Hfail. rewrite Hm in Hm'. injection Hm' as <- <-.
    apply listFiles_Throw in Hfail. rewrite Hes in Hfail. injection Hfail as <-.
    done.
Qed.

(** C4.  When the repository identifier is absent or malformed (no
    separator, several separators, an empty owner or an empty name),
    [createFileResources] returns the empty sequence, does not throw, and
    logs one diagnostic. *)
Theorem createFileResources_malformed_repository {platform : Platform}
    (accessToken : string) (env : Env) :
  MissingOrMalformed (SOURCE_REPOSITORY_NAME env) →
  result (createFileResources accessToken env) = Normal []
  ∧ ∃ line, logged (createFileResources accessToken env) = [Line line].
Proof.
  intros Hbad.
  destruct (Js.falsy (SOURCE_REPOSITORY_NAME env)) eqn:Hf.
  { rewrite (createFileResources_unconfigured _ _ Hf). split; [done|by eexists]. }
  destruct (SOURCE_REPOSITORY_NAME env) as [s|] eqn:Hs; [|done].
  simpl in Hf, Hbad. apply bool_decide_eq_false in Hf.
  apply Malformed_no_match in Hbad.
  rewrite (createFileResources_no_match _ _ s Hs Hf Hbad).
  split; [done|by eexists].
Qed.

Lemma createFileResources_malformed_repository_witness :
  MissingOrMalformed (Some "octo/demo/extra")
  ∧ result (createFileResources (platform := Demo.platform) "token"
              {| SOURCE_REPOSITORY_NAME := Some "octo/demo/extra";
                 BRANCH_NAME := None |}) = Normal []
  ∧ ∃ line,
      logged (createFileResources (platform := Demo.platform) "token"
                {| SOURCE_REPOSITORY_NAME := Some "octo/demo/extra";
                   BRANCH_NAME := None |}) = [Line line].
Proof.
  split.
  - exact (multiple_separators "octo" "demo" "extra").
  - apply (createFileResources_malformed_repository (platform := Demo.platform)).
    exact (multiple_separators "octo" "demo" "extra").
Defined.

(** C5.  Every descriptor returned by [createFileResources] stands for a
    plain file of the remote tree: its name is that file's full path, its
    URI is [github://file/] followed by the exact path, and its title is
    the final segment of the path; for a path [a/b/c.ext] the title is
    [c.ext]. *)
Theorem descriptor_name_title_uri {platform : Platform}
    (accessToken : string) (env : Env)
    (rs : list FileResource.t) (r : FileResource.t) :
  result (createFileResources accessToken env) = Normal rs → r ∈ rs →
  ∃ path,
    (∃ owner repo t item,
       RemoteTree (Octokit_new accessToken) owner repo (BRANCH_NAME env) t
       ∧ item ∈ tree_tree t
       ∧ item_type item = Some "blob"
       ∧ item_path item = Some path)
    ∧ FileResource.name r = path
    ∧ FileResource.uri r = "github://file/" +:+ path
    ∧ LastSegment "/" path (FileResource.title r)
    ∧ ∀ a b c, "/"%char ∉ Js.chars c →
        path = a +:+ "/" +:+ b +:+ "/" +:+ c → FileResource.title r = c.
Proof.
  intros Hres Hr.
  destruct (createFileResources_elem_of _ _ rs r Hres Hr)
    as (s & owner & repo & es & file & Hs & Hm & Hes & Hfile & ->).
  apply listFiles_Normal in Hes as (t & Ht & HL).
  destruct (Listing_elem_of _ _ _ HL Hfile) as (item & Hitem & [Hty _] & Hof).
  destruct Hof as (Hpath & Hlast & _).
  exists (entry_path file). simpl. split; [by exists owner, repo, t, item|].
  split; [done|]. split; [done|]. split; [done|].
  intros a b c Hc Hp. eapply LastSegment_unique; [exact Hlast|].
  split; [done|]. right. exists (a +:+ "/" +:+ b). rewrite Hp.
  by rewrite !app_assoc.
Qed.

Lemma descriptor_name_title_uri_witness :
  ∃ rs r,
    result (createFileResources (platform := Demo.platform) "token" Demo.env)
    = Normal rs
    ∧ r ∈ rs
    ∧ FileResource.name r = "src/lib/index.ts"
    ∧ FileResource.uri r = "github://file/src/lib/index.ts"
    ∧ FileResource.title r = "index.ts".
Proof.
  pose (r := FileResource.new "token" "octo" "demo" "src/lib/index.ts"
               "index.ts" 0).
  pose (rs := [ FileResource.new "token" "octo" "demo" "README.md"
                  "README.md" 12; r;
                FileResource.new "token" "octo" "demo" "docs/" "" 0 ]).
  assert (result (createFileResources (platform := Demo.platform) "token" Demo.env)
          = Normal rs) as Hres by (vm_compute; reflexivity).
  assert (r ∈ rs) as Hr by (apply elem_of_cons; right; apply elem_of_cons; by left).
  destruct (descriptor_name_title_uri (platform := Demo.platform) "token" Demo.env
              rs r Hres Hr) as (path & _ & Hname & Huri & _ & Htitle).
  exists rs, r. split; [exact Hres|]. split; [exact Hr|].
  split; [reflexivity|]. split; [reflexivity|].
  apply (Htitle "src" "lib" "index.ts").
  - simpl. rewrite !not_elem_of_cons. repeat split; try discriminate.
    apply not_elem_of_nil.
  - rewrite <-Hname. reflexivity.
Defined.

Lemma EntryOf_unique item e1 e2 :
  EntryOf item e1 → EntryOf item e2 → e1 = e2.
Proof.
  intros (Hp1 & Hl1 & Hs1) (Hp2 & Hl2 & Hs2).
  destruct e1 as [p1 n1 s1], e2 as [p2 n2 s2]; simpl in *.
  rewrite Hp1 in Hp2. injection Hp2 as <-.
  rewrite (LastSegment_unique _ _ _ _ Hl1 Hl2). congruence.
Qed.

(** C6.  When the remote reads end in a tree listing, [listFiles] returns
    the listing of that tree: exactly the items of type [blob] with a
    non-empty path, in order, each as a Tree Entry with its path, the final
    path segment as leaf name and the reported size or 0; an item of any
    other type contributes nothing. *)
Theorem listFiles_keeps_exactly_blobs
    (octokit : Octokit) (owner repo : string) (branch : option string)
    (t : GitTree) :
  RemoteTree octokit owner repo branch t →
  ∃ es, result (listFiles octokit owner repo branch) = Normal es
    ∧ Listing (tree_tree t) es
    ∧ ∀ e, e ∈ es ↔
           ∃ item, item ∈ tree_tree t
                   ∧ item_type item = Some "blob"
                   ∧ (∃ p, item_path item = Some p ∧ p ≠ "")
                   ∧ EntryOf item e.
Proof.
  intros Ht. rewrite (listFiles_on_tree _ _ _ _ t Ht).
  destruct (entries_of_listing (tree_tree t)) as (es & Hes & HL).
  exists es. split; [done|]. split; [done|]. intros e. split.
  - intros Hin. destruct (Listing_elem_of _ _ _ HL Hin) as (item & ? & [? ?] & ?).
    by exists item.
  - intros (item & Hitem & Hty & Hp & Hof).
    destruct (Listing_complete _ _ item HL Hitem) as (e' & Hin & Hof').
    { by split. }
    by rewrite (EntryOf_unique item e e').
Qed.

Lemma listFiles_keeps_exactly_blobs_witness :
  RemoteTree Demo.octokit "octo" "demo" None {| tree_tree := Demo.items |}
  ∧ ∃ es, result (listFiles Demo.octokit "octo" "demo" None) = Normal es
      ∧ Listing Demo.items es
      ∧ ∀ e, e ∈ es ↔
             ∃ item, item ∈ Demo.items
                     ∧ item_type item = Some "blob"
                     ∧ (∃ p, item_path item = Some p ∧ p ≠ "")
                     ∧ EntryOf item e.
Proof.
  assert (RemoteTree Demo.octokit "octo" "demo" None
            {| tree_tree := Demo.items |}) as Ht.
  { apply (remote_tree _ _ _ _ _ "main" {| object_sha := "c0ffee" |}
             {| tree_sha := "7ea" |}); [|reflexivity..].
    apply (default_of_repository _ _ _ None {| default_branch := "main" |});
      reflexivity. }
  split; [exact Ht|].
  exact (listFiles_keeps_exactly_blobs Demo.octokit "octo" "demo" None _ Ht).
Defined.

(** C7.  A handler call that returns yields exactly one content record,
    carrying the requested URI, the decoded text of the single-file
    response, the descriptor's title, the inferred media type and the
    size. *)
Theorem handler_success_single_record {platform : Platform}
    (accessToken owner repo filePath fileName : string) (fileSize : Z)
    (uri : URL) (cs : list Contents.t) :
  result (FileResource.handler
            (FileResource.new accessToken owner repo filePath fileName fileSize)
            uri) = Normal cs →
  ∃ content,
    repos_getContent (Octokit_new accessToken) owner repo filePath
    = Normal (ContentObject "file" content)
    ∧ cs = [ {| Contents.uri := href uri;
                Contents.text := Buffer_base64_utf8 (Js.str_or content "");
                Contents.title :=
                  FileResource.title
                    (FileResource.new accessToken owner repo filePath fileName
                       fileSize);
                Contents.mimeType := FileResource.getMimeType fileName;
                Contents.size := fileSize |} ].
Proof.
  set (self := FileResource.new _ _ _ _ _ _). intros Hres.
  destruct (contentRead self) as [data|e] eqn:Hread.
  - destruct (single_file_or_not data) as [[content ->]|Hnot].
    + rewrite (handler_on_file self uri content Hread) in Hres.
      injection Hres as <-. by exists content.
    + by rewrite (handler_on_other self uri data Hread Hnot) in Hres.
  - by rewrite (handler_on_failure self uri e Hread) in Hres.
Qed.

Lemma handler_success_single_record_witness :
  result (FileResource.handler (platform := Demo.platform)
            (FileResource.new "token" "octo" "demo" "README.md" "README.md" 12)
            {| href := "github://file/README.md" |})
  = Normal [ {| Contents.uri := "github://file/README.md";
                Contents.title := "README.md";
                Contents.text := "hello world" +:+ String "010" "";
                Contents.mimeType := Js.VString "text/markdown";
                Contents.size := 12 |} ]
  ∧ ∃ content,
      repos_getContent Demo.octokit "octo" "demo" "README.md"
      = Normal (ContentObject "file" content)
      ∧ Base64.decode (Js.str_or content "") = "hello world" +:+ String "010" "".
Proof.
  assert (result (FileResource.handler (platform := Demo.platform)
            (FileResource.new "token" "octo" "demo" "README.md" "README.md" 12)
            {| href := "github://file/README.md" |})
          = Normal [ {| Contents.uri := "github://file/README.md";
                        Contents.title := "README.md";
                        Contents.text := "hello world" +:+ String "010" "";
                        Contents.mimeType := Js.VString "text/markdown";
                        Contents.size := 12 |} ]) as Hres
    by (vm_compute; reflexivity).
  split; [exact Hres|].
  destruct (handler_success_single_record (platform := Demo.platform) _ _ _ _ _ _ _ _
              Hres) as (content & Hread & Hcs).
  exists content. split; [exact Hread|]. by injection Hcs.
Defined.

(** C8.  For a single-file response without a [content] field the handler
    does not fail: it decodes the empty string and returns one record
    whose text is empty (the decoder maps the empty input to the empty
    text). *)
Theorem handler_absent_content_empty_text {platform : Platform}
    (self : FileResource.t) (uri : URL) :
  Buffer_base64_utf8 "" = "" →
  contentRead self = Normal (ContentObject "file" None) →
  ∃ c, result (FileResource.handler self uri) = Normal [c]
       ∧ Contents.text c = "".
Proof.
  intros Hdecode Hread. rewrite (handler_on_file self uri None Hread).
  eexists. split; [done|]. done.
Qed.

Lemma handler_absent_content_empty_text_witness :
  Base64.decode "" = ""
  ∧ contentRead (platform := Demo.platform)
      (FileResource.new "token" "octo" "demo" "empty.txt" "empty.txt" 0)
    = Normal (ContentObject "file" None)
  ∧ ∃ c, result (FileResource.handler (platform := Demo.platform)
                   (FileResource.new "token" "octo" "demo" "empty.txt"
                      "empty.txt" 0)
                   {| href := "github://file/empty.txt" |}) = Normal [c]
         ∧ Contents.text c = "".
Proof.
  split; [reflexivity|]. split; [reflexivity|].
  apply (handler_absent_content_empty_text (platform := Demo.platform));
    reflexivity.
Defined.

(** C9.  The size in a returned content record is the size bound into
    the descriptor when it was built, for a descriptor of the enumeration
    the size reported by the tree listing (or 0); it is not computed from
    the fetched text, and can differ from the length of that text. *)
Theorem handler_size_is_enumeration_size :
  (∀ (P : Platform) (self : FileResource.t) (uri : URL) cs c,
     result (FileResource.handler self uri) = Normal cs → c ∈ cs →
     Contents.size c = FileResource.fileSize self)
  ∧ (∀ (P : Platform) accessToken env rs r,
       result (createFileResources accessToken env) = Normal rs → r ∈ rs →
       FileResource.fileSize r = FileResource.size r
       ∧ ∃ owner repo t item,
           RemoteTree (Octokit_new accessToken) owner repo (BRANCH_NAME env) t
           ∧ item ∈ tree_tree t
           ∧ item_path item = Some (FileResource.name r)
           ∧ FileResource.fileSize r = default 0 (item_size item))
  ∧ (∃ (P : Platform) (self : FileResource.t) (uri : URL) c,
       result (FileResource.handler self uri) = Normal [c]
       ∧ Contents.size c ≠ Z.of_nat (String.length (Contents.text c))).
Proof.
  split; [|split].
  - intros P self uri cs c Hres Hc.
    destruct (contentRead self) as [data|e] eqn:Hread.
    + destruct (single_file_or_not data) as [[content ->]|Hnot].
      * rewrite (handler_on_file self uri content Hread) in Hres.
        injection Hres as <-. apply list_elem_of_singleton in Hc. by subst c.
      * by rewrite (handler_on_other self uri data Hread Hnot) in Hres.
    + by rewrite (handler_on_failure self uri e Hread) in Hres.
  - intros P accessToken env rs r Hres Hr.
    destruct (createFileResources_elem_of _ _ rs r Hres Hr)
      as (s & owner & repo & es & file & Hs & Hm & Hes & Hfile & ->).
    split; [done|].
    apply listFiles_Normal in Hes as (t & Ht & HL).
    destruct (Listing_elem_of _ _ _ HL Hfile) as (item & Hitem & _ & Hof).
    destruct Hof as (Hpath & _ & Hsize).
    by exists owner, repo, t, item.
  - exists Demo.platform,
      (FileResource.new "token" "octo" "demo" "README.md" "README.md" 3),
      {| href := "github://file/README.md" |}.
    eexists. split; [vm_compute; reflexivity|]. vm_compute. discriminate.
Qed.

(** C3 (as stated, refuted).  The remote read for [gone.txt] fails with
    [Not Found]; the handler's error is [Failed to read file: Not Found],
    which names the cause but not the path. *)
Lemma handler_remote_failure_omits_path :
  contentRead (platform := Demo.platform) Demo.missing = Throw (ErrorObject "Not Found")
  ∧ FileResource.filePath Demo.missing = "gone.txt"
  ∧ result (FileResource.handler (platform := Demo.platform) Demo.missing
              {| href := "github://file/gone.txt" |})
    = Throw (ErrorObject "Failed to read file: Not Found")
  ∧ Js.includes "Failed to read file: Not Found"
      (FileResource.filePath Demo.missing) = false.
Proof. repeat split; vm_compute; reflexivity. Qed.

(** C3 (amended).  The handler fails exactly when its remote read fails
    or answers with something other than one single file, and then throws
    to its caller one [Error] whose message is [Failed to read file: ]
    followed by the cause: the message of the remote failure, or
    [Path <path> is not a file], which names the path. *)
Theorem handler_failure_normalized {platform : Platform}
    (self : FileResource.t) (uri : URL) :
  ((∃ e, result (FileResource.handler self uri) = Throw e) ↔
   (∃ e, contentRead self = Throw e)
   ∨ (∃ data, contentRead self = Normal data ∧ NotASingleFile data))
  ∧ (∀ e, contentRead self = Throw e →
          result (FileResource.handler self uri)
          = Throw (ErrorObject ("Failed to read file: " +:+ describe e))
          ∧ Js.includes ("Failed to read file: " +:+ describe e) (describe e)
            = true)
  ∧ (∀ data, contentRead self = Normal data → NotASingleFile data →
             result (FileResource.handler self uri)
             = Throw (ErrorObject
                        ("Failed to read file: Path "
                         +:+ FileResource.filePath self +:+ " is not a file"))
             ∧ Js.includes
                 ("Failed to read file: Path "
                  +:+ FileResource.filePath self +:+ " is not a file")
                 (FileResource.filePath self) = true).
Proof.
  split; [|split].
  - destruct (contentRead self) as [data|e] eqn:Hread.
    + destruct (single_file_or_not data) as [[content ->]|Hnot].
      * rewrite (handler_on_file self uri content Hread). simpl. split.
        -- by intros [e ?].
        -- intros [[e ?]|(data & [= <-] & Hnot)]; [done|]. by destruct Hnot.
      * rewrite (handler_on_other self uri data Hread Hnot). split.
        -- intros _. right. by exists data.
        -- intros _. by eexists.
    + rewrite (handler_on_failure self uri e Hread). split.
      * intros _. left. by exists e.
      * intros _. by eexists.
  - intros e Hread. rewrite (handler_on_failure self uri e Hread).
    split; [done|].
    rewrite <-(app_nil_r (describe e)) at 1. apply includes_app.
  - intros data Hread Hnot. rewrite (handler_on_other self uri data Hread Hnot).
    split; [done|]. apply includes_app.
Qed.

(** C10 (as stated, refuted).  The path [docs/] is not empty, yet its
    final segment is the empty string, and the entry produced for it has
    the empty name. *)
Lemma trailing_slash_empty_final_segment :
  "docs/" ≠ ""
  ∧ Js.pop (Js.split "/" "docs/") = Some ""
  ∧ toEntry {| item_path := Some "docs/"; item_type := Some "blob";
               item_size := Some 0 |}
    = Normal {| entry_path := "docs/"; entry_name := ""; entry_size := 0 |}.
Proof. repeat split; [discriminate|vm_compute; reflexivity..]. Qed.

(** C10 (amended).  For every entry [listFiles] produces, the path is not
    empty, and splitting it on ['/'] and taking the last element is always
    defined, so the [unknown] default is never taken: the name is the
    final segment of the path, which is empty exactly when the path ends
    in ['/'], and is [unknown] only when that is literally the final
    segment. *)
Theorem listFiles_unknown_unreachable
    (octokit : Octokit) (owner repo : string) (branch : option string)
    (es : list TreeEntry) (e : TreeEntry) :
  result (listFiles octokit owner repo branch) = Normal es → e ∈ es →
  entry_path e ≠ ""
  ∧ Js.pop (Js.split "/" (entry_path e)) = Some (entry_name e)
  ∧ LastSegment "/" (entry_path e) (entry_name e)
  ∧ (entry_name e = "" ↔ ∃ dir, entry_path e = dir +:+ "/")
  ∧ (entry_name e = "unknown" →
     entry_path e = "unknown" ∨ ∃ dir, entry_path e = dir +:+ "/unknown").
Proof.
  intros Hres He. apply listFiles_Normal in Hres as (t & Ht & HL).
  destruct (Listing_elem_of _ _ _ HL He) as (item & Hitem & Hblob & Hof).
  destruct Hblob as [_ (p & Hp & Hne)]. destruct Hof as (Hpath & Hlast & _).
  rewrite Hp in Hpath. injection Hpath as ->.
  split; [done|]. split; [by apply last_segment_pop_split|]. split; [done|].
  split.
  - split.
    + intros Hname. rewrite Hname in Hlast.
      apply last_segment_empty in Hlast as [?|?]; done.
    + intros [dir Hdir]. eapply LastSegment_unique; [exact Hlast|].
      apply last_segment_empty. right. by exists dir.
  - intros Hname. rewrite Hname in Hlast. destruct Hlast as [_ [?|[dir ?]]].
    + by left.
    + right. by exists dir.
Qed.

Lemma listFiles_unknown_unreachable_witness :
  ∃ es e,
    result (listFiles Demo.octokit "octo" "demo" None) = Normal es
    ∧ e ∈ es
    ∧ entry_path e = "docs/"
    ∧ entry_name e = ""
    ∧ Js.pop (Js.split "/" (entry_path e)) = Some (entry_name e).
Proof.
  pose (e := {| entry_path := "docs/"; entry_name := ""; entry_size := 0 |}).
  pose (es := [ {| entry_path := "README.md"; entry_name := "README.md";
                   entry_size := 12 |};
                {| entry_path := "src/lib/index.ts"; entry_name := "index.ts";
                   entry_size := 0 |}; e ]).
  assert (result (listFiles Demo.octokit "octo" "demo" None) = Normal es)
    as Hres by (vm_compute; reflexivity).
  assert (e ∈ es) as He
    by (apply elem_of_cons; right; apply elem_of_cons; right;
        apply elem_of_cons; by left).
  destruct (listFiles_unknown_unreachable Demo.octokit "octo" "demo" None
              es e Hres He) as (_ & Hpop & _).
  exists es, e. split; [exact Hres|]. split; [exact He|].
  split; [reflexivity|]. split; [reflexivity|]. exact Hpop.
Defined.

(** * Further properties of the enumeration *)

Lemma toEntry_paths (items : list TreeItem) (es : list TreeEntry) :
  mapM toEntry items = Normal es →
  Some <$> (entry_path <$> es) = item_path <$> items
  ∧ entry_size <$> es = (λ item, default 0 (item_size item)) <$> items.
Proof.
  revert es. induction items as [|item items IH]; intros es; simpl.
  - by intros [= <-].
  - destruct (toEntry item) as [e|err] eqn:He; simpl; [|done].
    destruct (mapM toEntry items) as [es'|] eqn:Hes'; simpl; [|done].
    intros [= <-]. destruct (IH es' eq_refl) as [IHp IHs].
    unfold toEntry in He. destruct (item_path item) as [p|] eqn:Hp; [|done].
    injection He as <-. rewrite !fmap_cons. simpl entry_path. simpl entry_size.
    rewrite num_or_0_default. by rewrite IHp, IHs.
Qed.

Lemma no_blob_no_entry (items : list TreeItem) :
  (∀ item, item ∈ items → ¬ isBlobWithPath item) →
  filter isBlobWithPath items = [].
Proof.
  induction items as [|item items IH]; intros Hnone; [done|].
  rewrite filter_cons, decide_False by (apply Hnone; left).
  apply IH. intros i Hi. apply Hnone. by right.
Qed.

(** What the enumeration returns once the remote reads end in a tree. *)
Lemma createFileResources_on_tree {platform : Platform}
    (accessToken : string) (env : Env) (s owner repo : string) (t : GitTree) :
  SOURCE_REPOSITORY_NAME env = Some s → repoMatch s = Some (owner, repo) →
  RemoteTree (Octokit_new accessToken) owner repo (BRANCH_NAME env) t →
  ∃ es,
    mapM toEntry (filter isBlobWithPath (tree_tree t)) = Normal es
    ∧ result (listFiles (Octokit_new accessToken) owner repo (BRANCH_NAME env))
      = Normal es
    ∧ result (createFileResources accessToken env)
      = Normal ((λ file, FileResource.new accessToken owner repo
                           (entry_path file) (entry_name file)
                           (entry_size file)) <$> es).
Proof.
  intros Hs Hm Ht.
  destruct (entries_of_listing (tree_tree t)) as (es & Hes & _).
  exists es. split; [done|].
  assert (result (listFiles (Octokit_new accessToken) owner repo
                    (BRANCH_NAME env)) = Normal es) as Hres.
  { by rewrite (listFiles_on_tree _ _ _ _ t Ht). }
  split; [done|]. by apply (createFileResources_on_listing _ _ s).
Qed.

(** X1.  The repository pattern is exact: it matches the identifiers
    made of a non-empty owner, one ['/'] and a non-empty name, neither
    containing ['/'], capturing the two sides; it fails exactly on the
    malformed ones. *)
Theorem repository_pattern_exact (s : string) :
  (∀ owner repo,
     repoMatch s = Some (owner, repo) ↔ OwnerSlashName s owner repo)
  ∧ (repoMatch s = None ↔ Malformed s).
Proof.
  split.
  - intros owner repo. apply repoMatch_Some.
  - split; [apply no_match_Malformed|apply Malformed_no_match].
Qed.

(** X2.  With an absent or malformed identifier the enumeration never
    reaches the remote service: its outcome and its log are the same on
    every platform. *)
Theorem createFileResources_offline_when_misconfigured
    (P1 P2 : Platform) (accessToken : string) (env : Env) :
  MissingOrMalformed (SOURCE_REPOSITORY_NAME env) →
  createFileResources (platform := P1) accessToken env
  = createFileResources (platform := P2) accessToken env.
Proof.
  intros Hbad.
  destruct (Js.falsy (SOURCE_REPOSITORY_NAME env)) eqn:Hf.
  { by rewrite !(createFileResources_unconfigured _ _ Hf). }
  destruct (SOURCE_REPOSITORY_NAME env) as [s|] eqn:Hs; [|done].
  simpl in Hf, Hbad. apply bool_decide_eq_false in Hf.
  apply Malformed_no_match in Hbad.
  by rewrite !(createFileResources_no_match _ _ s Hs Hf Hbad).
Qed.

Lemma createFileResources_offline_when_misconfigured_witness :
  MissingOrMalformed (Some "octo/")
  ∧ createFileResources (platform := Demo.platform) "token"
      {| SOURCE_REPOSITORY_NAME := Some "octo/"; BRANCH_NAME := Some "main" |}
    = createFileResources (platform := Fixture.offline) "token"
        {| SOURCE_REPOSITORY_NAME := Some "octo/"; BRANCH_NAME := Some "main" |}.
Proof.
  split.
  - exact (empty_name "octo").
  - apply (createFileResources_offline_when_misconfigured Demo.platform
             Fixture.offline).
    exact (empty_name "octo").
Defined.

(** X3.  A well-formed identifier whose tree holds no plain file with a
    non-empty path gives the empty sequence; the log reports that no
    files were found, and no failure. *)
Theorem createFileResources_no_files {platform : Platform}
    (accessToken : string) (env : Env) (s owner repo : string) (t : GitTree) :
  SOURCE_REPOSITORY_NAME env = Some s → repoMatch s = Some (owner, repo) →
  RemoteTree (Octokit_new accessToken) owner repo (BRANCH_NAME env) t →
  (∀ item, item ∈ tree_tree t → ¬ BlobWithPath item) →
  createFileResources accessToken env
  = (Normal [],
     [ Line ("Fetching files from repository: " +:+ owner +:+ "/" +:+ repo);
       Line ("No files found in repository " +:+ owner +:+ "/" +:+ repo
             +:+ " with the specified filters") ]).
Proof.
  intros Hs Hm Ht Hnone.
  destruct (createFileResources_on_tree accessToken env s owner repo t Hs Hm Ht)
    as (es & Hes & Hres & _).
  assert (es = []) as ->.
  { destruct es as [|e es]; [done|].
    apply listFiles_Normal in Hres as (t' & _ & HL).
    assert (filter isBlobWithPath (tree_tree t) = []) as Hnil.
    { apply no_blob_no_entry. intros item Hin Hkeep.
      apply (Hnone item Hin). by apply isBlobWithPath_spec. }
    rewrite Hnil in Hes. simpl in Hes. by injection Hes. }
  assert (logged (listFiles (Octokit_new accessToken) owner repo
                    (BRANCH_NAME env)) = []) as Hlog.
  { destruct Ht as [b ref commit Hb Href Hcommit Htree]. unfold listFiles.
    rewrite (target_branch_step _ _ _ _ b Hb). simpl. rewrite Href. simpl.
    rewrite Hcommit. simpl. rewrite Htree. simpl.
    by destruct (mapM _ _). }
  unfold createFileResources. rewrite Hs. simpl.
  assert (s ≠ "") as Hne by (by intros ->).
  rewrite bool_decide_false by done. rewrite Hm.
  destruct (listFiles _ _ _ _) as [[es'|e'] log]; simpl in Hres, Hlog;
    [injection Hres as ->; subst log|done].
  done.
Qed.

Lemma createFileResources_no_files_witness :
  createFileResources (platform := Fixture.platform Fixture.directories)
    "token" Demo.env
  = (Normal [],
     [ Line "Fetching files from repository: octo/demo";
       Line "No files found in repository octo/demo with the specified filters" ]).
Proof.
  apply (createFileResources_no_files
           (platform := Fixture.platform Fixture.directories)
           "token" Demo.env "octo/demo" "octo" "demo"
           {| tree_tree := Fixture.directories |}).
  - reflexivity.
  - vm_compute. reflexivity.
  - apply (remote_tree _ _ _ _ _ "main" {| object_sha := "c0ffee" |}
             {| tree_sha := "7ea" |}); [|reflexivity..].
    apply (default_of_repository _ _ _ None {| default_branch := "main" |});
      reflexivity.
  - intros item Hin Hblob. apply isBlobWithPath_spec in Hblob.
    simpl in Hin. unfold Fixture.directories in Hin.
    repeat (apply elem_of_cons in Hin as [->|Hin]; [by vm_compute in Hblob|]).
    by apply elem_of_nil in Hin.
Defined.

(** X4.  The descriptors follow the remote listing: their names are the
    paths of the plain files of the tree, in the order of the listing and
    with repetitions kept, and their sizes are the reported sizes, 0 when
    unreported. *)
Theorem createFileResources_follows_listing {platform : Platform}
    (accessToken : string) (env : Env) (s owner repo : string) (t : GitTree) :
  SOURCE_REPOSITORY_NAME env = Some s → repoMatch s = Some (owner, repo) →
  RemoteTree (Octokit_new accessToken) owner repo (BRANCH_NAME env) t →
  ∃ rs,
    result (createFileResources accessToken env) = Normal rs
    ∧ Some <$> (FileResource.name <$> rs)
      = item_path <$> filter isBlobWithPath (tree_tree t)
    ∧ FileResource.size <$> rs
      = (λ item, default 0 (item_size item))
          <$> filter isBlobWithPath (tree_tree t).
Proof.
  intros Hs Hm Ht.
  destruct (createFileResources_on_tree accessToken env s owner repo t Hs Hm Ht)
    as (es & Hes & _ & Hres).
  eexists. split; [exact Hres|].
  destruct (toEntry_paths _ _ Hes) as [Hpaths Hsizes].
  rewrite <-Hpaths, <-Hsizes, <-!list_fmap_compose. done.
Qed.

Lemma createFileResources_follows_listing_witness :
  ∃ rs,
    result (createFileResources (platform := Fixture.platform Fixture.twice)
              "token" Demo.env) = Normal rs
    ∧ Some <$> (FileResource.name <$> rs)
      = [Some "a.md"; Some "a.md"; Some "b.md"]
    ∧ FileResource.size <$> rs = [1; 2; 3].
Proof.
  apply (createFileResources_follows_listing
           (platform := Fixture.platform Fixture.twice)
           "token" Demo.env "octo/demo" "octo" "demo"
           {| tree_tree := Fixture.twice |}).
  - reflexivity.
  - vm_compute. reflexivity.
  - apply (remote_tree _ _ _ _ _ "main" {| object_sha := "c0ffee" |}
             {| tree_sha := "7ea" |}); [|reflexivity..].
    apply (default_of_repository _ _ _ None {| default_branch := "main" |});
      reflexivity.
Defined.

(** X5.  Every descriptor of the enumeration is the constructor's value
    on its own public fields, the credential given to the enumeration and
    the two sides of the identifier: its private path, leaf name and size
    agree with its name, title and size, and its later content read asks
    the configured repository for exactly its name. *)
Theorem descriptor_bound_identity {platform : Platform}
    (accessToken : string) (env : Env)
    (rs : list FileResource.t) (r : FileResource.t) :
  result (createFileResources accessToken env) = Normal rs → r ∈ rs →
  ∃ s owner repo,
    SOURCE_REPOSITORY_NAME env = Some s
    ∧ OwnerSlashName s owner repo
    ∧ r = FileResource.new accessToken owner repo (FileResource.name r)
            (FileResource.title r) (FileResource.size r)
    ∧ contentRead r
      = repos_getContent (Octokit_new accessToken) owner repo
          (FileResource.name r).
Proof.
  intros Hres Hr.
  destruct (createFileResources_elem_of _ _ rs r Hres Hr)
    as (s & owner & repo & es & file & Hs & Hm & _ & _ & ->).
  exists s, owner, repo. split; [done|].
  split; [by apply repoMatch_Some|]. done.
Qed.

Lemma descriptor_bound_identity_witness :
  ∃ rs r,
    result (createFileResources (platform := Demo.platform) "token" Demo.env)
    = Normal rs
    ∧ r ∈ rs
    ∧ ∃ s owner repo,
        SOURCE_REPOSITORY_NAME Demo.env = Some s
        ∧ OwnerSlashName s owner repo
        ∧ r = FileResource.new "token" owner repo (FileResource.name r)
                (FileResource.title r) (FileResource.size r)
        ∧ contentRead (platform := Demo.platform) r
          = repos_getContent Demo.octokit owner repo (FileResource.name r).
Proof.
  pose (r := FileResource.new "token" "octo" "demo" "README.md" "README.md" 12).
  pose (rs := [ r;
                FileResource.new "token" "octo" "demo" "src/lib/index.ts"
                  "index.ts" 0;
                FileResource.new "token" "octo" "demo" "docs/" "" 0 ]).
  assert (result (createFileResources (platform := Demo.platform) "token"
                    Demo.env) = Normal rs) as Hres by (vm_compute; reflexivity).
  assert (r ∈ rs) as Hr by (apply elem_of_cons; by left).
  exists rs, r. split; [exact Hres|]. split; [exact Hr|].
  exact (descriptor_bound_identity (platform := Demo.platform) "token" Demo.env
           rs r Hres Hr).
Defined.

(** X6.  The URI determines the path; so when the plain files of the
    tree have pairwise different paths, the descriptors have pairwise
    different URIs. *)
Theorem descriptor_uris_distinct {platform : Platform}
    (accessToken : string) (env : Env) (s owner repo : string) (t : GitTree)
    (rs : list FileResource.t) :
  SOURCE_REPOSITORY_NAME env = Some s → repoMatch s = Some (owner, repo) →
  RemoteTree (Octokit_new accessToken) owner repo (BRANCH_NAME env) t →
  result (createFileResources accessToken env) = Normal rs →
  NoDup (item_path <$> filter isBlobWithPath (tree_tree t)) →
  NoDup (FileResource.uri <$> rs).
Proof.
  intros Hs Hm Ht Hres Hnodup.
  destruct (createFileResources_on_tree accessToken env s owner repo t Hs Hm Ht)
    as (es & Hes & _ & Hres').
  rewrite Hres in Hres'. injection Hres' as ->.
  destruct (toEntry_paths _ _ Hes) as [Hpaths _].
  rewrite <-Hpaths in Hnodup. apply NoDup_fmap_1 in Hnodup.
  assert (FileResource.uri
            <$> ((λ file, FileResource.new accessToken owner repo
                            (entry_path file) (entry_name file)
                            (entry_size file)) <$> es)
          = String.append "github://file/" <$> (entry_path <$> es)) as ->.
  { rewrite <-!list_fmap_compose. reflexivity. }
  apply NoDup_fmap_2; [apply _|done].
Qed.

Lemma descriptor_uris_distinct_witness :
  ∃ rs,
    result (createFileResources (platform := Demo.platform) "token" Demo.env)
    = Normal rs
    ∧ NoDup (item_path <$> filter isBlobWithPath Demo.items)
    ∧ NoDup (FileResource.uri <$> rs).
Proof.
  pose (rs := [ FileResource.new "token" "octo" "demo" "README.md"
                  "README.md" 12;
                FileResource.new "token" "octo" "demo" "src/lib/index.ts"
                  "index.ts" 0;
                FileResource.new "token" "octo" "demo" "docs/" "" 0 ]).
  assert (result (createFileResources (platform := Demo.platform) "token"
                    Demo.env) = Normal rs) as Hres by (vm_compute; reflexivity).
  assert (NoDup (item_path <$> filter isBlobWithPath Demo.items)) as Hnodup.
  { apply (bool_decide_unpack _). vm_compute. exact I. }
  exists rs. split; [exact Hres|]. split; [exact Hnodup|].
  apply (descriptor_uris_distinct (platform := Demo.platform) "token" Demo.env
           "octo/demo" "octo" "demo" {| tree_tree := Demo.items |} rs).
  - reflexivity.
  - vm_compute. reflexivity.
  - apply (remote_tree _ _ _ _ _ "main" {| object_sha := "c0ffee" |}
             {| tree_sha := "7ea" |}); [|reflexivity..].
    apply (default_of_repository _ _ _ None {| default_branch := "main" |});
      reflexivity.
  - exact Hres.
  - exact Hnodup.
Defined.

(** * Further properties of [listFiles] *)

Lemma listFiles_quiet_on_tree (octokit : Octokit) (owner repo : string)
    (branch : option string) (t : GitTree) :
  RemoteTree octokit owner repo branch t →
  logged (listFiles octokit owner repo branch) = [].
Proof.
  intros [b ref commit Hb Href Hcommit Htree]. unfold listFiles.
  rewrite (target_branch_step _ _ _ _ b Hb). simpl. rewrite Href. simpl.
  rewrite Hcommit. simpl. rewrite Htree. simpl.
  destruct (entries_of_listing (tree_tree t)) as (es & Hes & _).
  by rewrite Hes.
Qed.

(** X7.  [listFiles] throws exactly when one of its remote reads fails,
    and then rethrows that very error after logging it once; the map
    callback's own failure on an absent path never occurs.  When it
    returns it has logged nothing. *)
Theorem listFiles_throws_only_remote_failures
    (octokit : Octokit) (owner repo : string) (branch : option string) :
  (∀ e, result (listFiles octokit owner repo branch) = Throw e ↔
        RemoteFailure octokit owner repo branch e)
  ∧ (∀ e, RemoteFailure octokit owner repo branch e →
          logged (listFiles octokit owner repo branch)
          = [LineWith "Error fetching files from tree:" e])
  ∧ (∀ es, result (listFiles octokit owner repo branch) = Normal es →
           logged (listFiles octokit owner repo branch) = []).
Proof.
  split; [|split].
  - intros e. apply listFiles_Throw.
  - intros e He. by apply listFiles_on_failure in He as [_ ?].
  - intros es Hes. apply listFiles_Normal in Hes as (t & Ht & _).
    by apply (listFiles_quiet_on_tree _ _ _ _ t).
Qed.

(** X8.  With a configured, non-empty branch [listFiles] never looks the
    repository up: two services that agree on the other three reads give
    the same outcome and the same log, whatever their repository lookups
    answer. *)
Theorem listFiles_configured_branch_skips_lookup
    (o1 o2 : Octokit) (owner repo b : string) :
  b ≠ "" →
  git_getRef o1 = git_getRef o2 →
  git_getCommit o1 = git_getCommit o2 →
  git_getTree o1 = git_getTree o2 →
  listFiles o1 owner repo (Some b) = listFiles o2 owner repo (Some b).
Proof.
  intros Hb Href Hcommit Htree. unfold listFiles. simpl.
  rewrite bool_decide_false by done.
  by rewrite Href, Hcommit, Htree.
Qed.

Lemma listFiles_configured_branch_skips_lookup_witness :
  repos_get Demo.octokit "octo" "demo" ≠ repos_get Fixture.no_lookup "octo" "demo"
  ∧ listFiles Demo.octokit "octo" "demo" (Some "main")
    = listFiles Fixture.no_lookup "octo" "demo" (Some "main").
Proof.
  split; [discriminate|].
  apply (listFiles_configured_branch_skips_lookup Demo.octokit
           Fixture.no_lookup "octo" "demo" "main");
    [discriminate|reflexivity..].
Defined.

(** X9.  When a remote read fails with [e] the enumeration returns
    nothing and logs three lines: the repository being queried, the
    failure as [listFiles] caught it, and the failure again at the outer
    boundary, by its message. *)
Theorem createFileResources_failure_diagnostics {platform : Platform}
    (accessToken : string) (env : Env) (s owner repo : string) (e : thrown) :
  SOURCE_REPOSITORY_NAME env = Some s → repoMatch s = Some (owner, repo) →
  RemoteFailure (Octokit_new accessToken) owner repo (BRANCH_NAME env) e →
  createFileResources accessToken env
  = (Normal [],
     [ Line ("Fetching files from repository: " +:+ owner +:+ "/" +:+ repo);
       LineWith "Error fetching files from tree:" e;
       Line ("Failed to create file resources: " +:+ describe e) ]).
Proof.
  intros Hs Hm He. apply listFiles_on_failure in He as [Hres Hlog].
  unfold createFileResources. rewrite Hs. simpl.
  assert (s ≠ "") as Hne by (by intros ->).
  rewrite bool_decide_false by done. rewrite Hm.
  destruct (listFiles _ _ _ _) as [[es'|e'] log]; simpl in Hres, Hlog;
    [done|injection Hres as ->; subst log].
  done.
Qed.

Lemma createFileResources_failure_diagnostics_witness :
  RemoteFailure Fixture.unreachable "octo" "demo" (Some "main")
    (ErrorObject "fetch failed")
  ∧ createFileResources (platform := Fixture.offline) "token"
      {| SOURCE_REPOSITORY_NAME := Some "octo/demo";
         BRANCH_NAME := Some "main" |}
    = (Normal [],
       [ Line "Fetching files from repository: octo/demo";
         LineWith "Error fetching files from tree:" (ErrorObject "fetch failed");
         Line "Failed to create file resources: fetch failed" ]).
Proof.
  assert (RemoteFailure Fixture.unreachable "octo" "demo" (Some "main")
            (ErrorObject "fetch failed")) as He.
  { apply (branch_lookup_fails _ _ _ _ _ "main"); [by constructor|reflexivity]. }
  split; [exact He|].
  apply (createFileResources_failure_diagnostics (platform := Fixture.offline)
           "token" _ "octo/demo" "octo" "demo");
    [reflexivity|vm_compute; reflexivity|exact He].
Defined.

(** * Further properties of the media type inference *)

Lemma getMimeType_table_witness :
  LastSegment "." "src/app.test.TS" "TS"
  ∧ FileResource.mimeTypes !! Js.toLowerCase "TS" = Some "text/typescript"
  ∧ FileResource.getMimeType "src/app.test.TS" = Js.VString "text/typescript".
Proof.
  assert (LastSegment "." "src/app.test.TS" "TS") as Hseg.
  { split; [|right; by exists "src/app.test"].
    simpl. rewrite !not_elem_of_cons. repeat split; try discriminate.
    apply not_elem_of_nil. }
  assert (FileResource.mimeTypes !! Js.toLowerCase "TS"
          = Some "text/typescript") as Hv by (vm_compute; reflexivity).
  split; [exact Hseg|]. split; [exact Hv|].
  exact (getMimeType_table "src/app.test.TS" "TS" "text/typescript" Hseg Hv).
Defined.

Lemma getMimeType_case_insensitive_witness :
  ("."%char ∉ Js.chars "Png")
  ∧ FileResource.getMimeType ("LOGO" +:+ "." +:+ "Png")
    = FileResource.getMimeType ("LOGO" +:+ "." +:+ Js.toLowerCase "Png").
Proof.
  assert ("."%char ∉ Js.chars "Png") as Hext.
  { simpl. rewrite !not_elem_of_cons. repeat split; try discriminate.
    apply not_elem_of_nil. }
  split; [exact Hext|]. exact (getMimeType_case_insensitive "LOGO" "Png" Hext).
Defined.

Lemma getMimeType_unrecognized_witness :
  LastSegment "." "archive.tar.gz" "gz"
  ∧ FileResource.mimeTypes !! Js.toLowerCase "gz" = None
  ∧ (Js.toLowerCase "gz" ∉ Js.Object_prototype)
  ∧ FileResource.getMimeType "archive.tar.gz"
    = Js.VString "application/octet-stream".
Proof.
  assert (LastSegment "." "archive.tar.gz" "gz") as Hseg.
  { split; [|right; by exists "archive.tar"].
    simpl. rewrite !not_elem_of_cons. repeat split; try discriminate.
    apply not_elem_of_nil. }
  assert (FileResource.mimeTypes !! Js.toLowerCase "gz" = None) as Hnone
    by (vm_compute; reflexivity).
  assert (Js.toLowerCase "gz" ∉ Js.Object_prototype) as Hproto.
  { apply (bool_decide_unpack _). vm_compute. exact I. }
  split; [exact Hseg|]. split; [exact Hnone|]. split; [exact Hproto|].
  exact (getMimeType_unrecognized "archive.tar.gz" "gz" Hseg Hnone Hproto).
Defined.

Lemma getMimeType_inherited_witness :
  FileResource.getMimeType "a.constructor" = Js.VInherited "constructor"
  ∧ ("constructor" = "constructor" ∨ "constructor" = "__proto__").
Proof.
  assert (FileResource.getMimeType "a.constructor"
          = Js.VInherited "constructor") as H by (vm_compute; reflexivity).
  split; [exact H|].
  exact (getMimeType_inherited "a.constructor" "constructor" H).
Defined.

(** * Further properties of the handler *)

(** X14.  The requested URI is only echoed: whether the handler fails,
    with which error, and every other field of the record it returns are
    the same for any two requested URIs; the handler logs nothing. *)
Theorem handler_ignores_requested_uri {platform : Platform}
    (self : FileResource.t) (u1 u2 : URL) :
  (∀ e, result (FileResource.handler self u1) = Throw e ↔
        result (FileResource.handler self u2) = Throw e)
  ∧ (∀ cs, result (FileResource.handler self u1) = Normal cs →
           result (FileResource.handler self u2)
           = Normal ((λ c, {| Contents.uri := href u2;
                              Contents.title := Contents.title c;
                              Contents.text := Contents.text c;
                              Contents.mimeType := Contents.mimeType c;
                              Contents.size := Contents.size c |}) <$> cs))
  ∧ logged (FileResource.handler self u1) = [].
Proof.
  destruct (contentRead self) as [data|e] eqn:Hread.
  - destruct (single_file_or_not data) as [[content ->]|Hnot].
    + rewrite !(handler_on_file self _ content Hread). simpl.
      split; [done|]. split; [|done]. by intros cs [= <-].
    + rewrite !(handler_on_other self _ data Hread Hnot). done.
  - rewrite !(handler_on_failure self _ e Hread). done.
Qed.

(** X15.  Enumerate, then fetch: for a descriptor of the enumeration
    whose content read finds a single file, the handler returns one record
    built from the descriptor's public fields: its title, the media type
    inferred from that title, and its size, with the decoded content. *)
Theorem enumerate_then_fetch {platform : Platform}
    (accessToken : string) (env : Env)
    (rs : list FileResource.t) (r : FileResource.t)
    (uri : URL) (content : option string) :
  result (createFileResources accessToken env) = Normal rs → r ∈ rs →
  contentRead r = Normal (ContentObject "file" content) →
  result (FileResource.handler r uri)
  = Normal [ {| Contents.uri := href uri;
                Contents.title := FileResource.title r;
                Contents.text := Buffer_base64_utf8 (Js.str_or content "");
                Contents.mimeType :=
                  FileResource.getMimeType (FileResource.title r);
                Contents.size := FileResource.size r |} ].
Proof.
  intros Hres Hr Hread.
  destruct (createFileResources_elem_of _ _ rs r Hres Hr)
    as (s & owner & repo & es & file & _ & _ & _ & _ & ->).
  by rewrite (handler_on_file _ uri content Hread).
Qed.

Lemma enumerate_then_fetch_witness :
  ∃ rs r,
    result (createFileResources (platform := Demo.platform) "token" Demo.env)
    = Normal rs
    ∧ r ∈ rs
    ∧ contentRead (platform := Demo.platform) r
      = Normal (ContentObject "file" (Some "aGVsbG8gd29ybGQK"))
    ∧ result (FileResource.handler (platform := Demo.platform) r
                {| href := "github://file/README.md" |})
      = Normal [ {| Contents.uri := "github://file/README.md";
                    Contents.title := "README.md";
                    Contents.text := "hello world" +:+ String "010" "";
                    Contents.mimeType := Js.VString "text/markdown";
                    Contents.size := 12 |} ].
Proof.
  pose (r := FileResource.new "token" "octo" "demo" "README.md" "README.md" 12).
  pose (rs := [ r;
                FileResource.new "token" "octo" "demo" "src/lib/index.ts"
                  "index.ts" 0;
                FileResource.new "token" "octo" "demo" "docs/" "" 0 ]).
  assert (result (createFileResources (platform := Demo.platform) "token"
                    Demo.env) = Normal rs) as Hres by (vm_compute; reflexivity).
  assert (r ∈ rs) as Hr by (apply elem_of_cons; by left).
  assert (contentRead (platform := Demo.platform) r
          = Normal (ContentObject "file" (Some "aGVsbG8gd29ybGQK"))) as Hread
    by reflexivity.
  exists rs, r. split; [exact Hres|]. split; [exact Hr|]. split; [exact Hread|].
  exact (enumerate_then_fetch (platform := Demo.platform) "token" Demo.env rs r
           {| href := "github://file/README.md" |} _ Hres Hr Hread).
Defined.

(** * Properties of the registration *)
Section registration.

Context {platform : Platform} {S : Type} {host : McpServer S}.
Implicit Types (server : S) (rs : list FileResource.t).

Lemma registerResources_on_descriptors server accessToken env rs :
  result (createFileResources accessToken env) = Normal rs →
  (registerResources server accessToken env).1
  = for_of rs
      (λ resource s,
         server_resource s (FileResource.name resource)
           (FileResource.uri resource) (FileResource.handler resource))
      server.
Proof.
  unfold registerResources, result.
  destruct (createFileResources accessToken env) as [[rs'|e] log]; simpl;
    [by intros [= ->]|done].
Qed.

Lemma for_of_app {A} (xs ys : list A) (body : A → S → completion unit * S)
    server s1 :
  for_of xs body server = (Normal tt, s1) →
  for_of (xs ++ ys) body server = for_of ys body s1.
Proof.
  revert server. induction xs as [|x xs IH]; intros server; simpl.
  - by intros [= ->].
  - destruct (body x server) as [[[]|e] s']; [apply IH|done].
Qed.

Lemma for_of_accepting {A} (xs : list A) (body : A → S → completion unit * S)
    server :
  (∀ x s, (body x s).1 = Normal tt) → ∃ s', for_of xs body server = (Normal tt, s').
Proof.
  intros Hok. revert server. induction xs as [|x xs IH]; intros server; simpl.
  - by eexists.
  - specialize (Hok x server). destruct (body x server) as [[[]|e] s']; [|done].
    apply IH.
Qed.

End registration.

Lemma createFileResources_returns {platform : Platform}
    (accessToken : string) (env : Env) :
  ∃ rs, result (createFileResources accessToken env) = Normal rs.
Proof.
  destruct (Js.falsy (SOURCE_REPOSITORY_NAME env)) eqn:Hf.
  { rewrite (createFileResources_unconfigured _ _ Hf). by eexists. }
  destruct (SOURCE_REPOSITORY_NAME env) as [s|] eqn:Hs; [|done].
  simpl in Hf. apply bool_decide_eq_false in Hf.
  destruct (repoMatch s) as [[owner repo]|] eqn:Hm.
  2:{ rewrite (createFileResources_no_match _ _ s Hs Hf Hm). by eexists. }
  destruct (result (listFiles (Octokit_new accessToken) owner repo
                      (BRANCH_NAME env))) as [es|e] eqn:Hes.
  - eexists. by eapply createFileResources_on_listing.
  - exists []. by eapply createFileResources_on_failure.
Qed.

Lemma createFileResources_misconfigured {platform : Platform}
    (accessToken : string) (env : Env) :
  MissingOrMalformed (SOURCE_REPOSITORY_NAME env) →
  result (createFileResources accessToken env) = Normal [].
Proof.
  intros Hbad.
  destruct (Js.falsy (SOURCE_REPOSITORY_NAME env)) eqn:Hf.
  { by rewrite (createFileResources_unconfigured _ _ Hf). }
  destruct (SOURCE_REPOSITORY_NAME env) as [s|] eqn:Hs; [|done].
  simpl in Hf, Hbad. apply bool_decide_eq_false in Hf.
  apply Malformed_no_match in Hbad.
  by rewrite (createFileResources_no_match _ _ s Hs Hf Hbad).
Qed.

(** X16.  When the identifier is absent or malformed, or a remote read
    of the enumeration fails, the registration completes normally and
    leaves the server as it was, whatever the host would answer to a
    registration. *)
Theorem registerResources_nothing_to_register {platform : Platform}
    {S : Type} {host : McpServer S}
    (server : S) (accessToken : string) (env : Env) :
  MissingOrMalformed (SOURCE_REPOSITORY_NAME env)
  ∨ (∃ s owner repo e,
       SOURCE_REPOSITORY_NAME env = Some s
       ∧ repoMatch s = Some (owner, repo)
       ∧ RemoteFailure (Octokit_new accessToken) owner repo (BRANCH_NAME env) e) →
  (registerResources server accessToken env).1 = (Normal tt, server).
Proof.
  intros Hcause.
  rewrite (registerResources_on_descriptors server accessToken env []); [done|].
  destruct Hcause as [Hbad|(s & owner & repo & e & Hs & Hm & He)].
  - by apply createFileResources_misconfigured.
  - apply listFiles_Throw in He.
    by destruct (createFileResources_on_failure _ _ s owner repo e Hs Hm He).
Qed.

Lemma registerResources_nothing_to_register_witness :
  (∃ s owner repo e,
     SOURCE_REPOSITORY_NAME Demo.env = Some s
     ∧ repoMatch s = Some (owner, repo)
     ∧ RemoteFailure Fixture.unreachable owner repo (BRANCH_NAME Demo.env) e)
  ∧ (registerResources (platform := Fixture.offline) (host := Fixture.strict)
       [("old", "github://file/old")] "token" Demo.env).1
    = (Normal tt, [("old", "github://file/old")]).
Proof.
  assert (∃ s owner repo e,
            SOURCE_REPOSITORY_NAME Demo.env = Some s
            ∧ repoMatch s = Some (owner, repo)
            ∧ RemoteFailure Fixture.unreachable owner repo
                (BRANCH_NAME Demo.env) e) as Hcause.
  { exists "octo/demo", "octo", "demo", (ErrorObject "fetch failed").
    split; [reflexivity|]. split; [vm_compute; reflexivity|].
    by apply repository_lookup_fails. }
  split; [exact Hcause|].
  apply (registerResources_nothing_to_register (platform := Fixture.offline)
           (host := Fixture.strict)).
  right. exact Hcause.
Defined.

(** X17.  On a host that accepts every registration, the registration
    never throws, whatever the configuration and the remote service do. *)
Theorem registerResources_never_fails_on_accepting_host
    {platform : Platform} {S : Type} {host : McpServer S}
    (server : S) (accessToken : string) (env : Env) :
  (∀ s name uri callback, (server_resource s name uri callback).1 = Normal tt) →
  ∃ server', (registerResources server accessToken env).1 = (Normal tt, server').
Proof.
  intros Hok.
  destruct (createFileResources_returns accessToken env) as (rs & Hres).
  rewrite (registerResources_on_descriptors server accessToken env rs Hres).
  apply for_of_accepting. intros r s. apply Hok.
Qed.

Lemma registerResources_never_fails_on_accepting_host_witness :
  (∀ s name uri callback,
     (server_resource (McpServer := Fixture.lenient) s name uri callback).1
     = Normal tt)
  ∧ ∃ server',
      (registerResources (platform := Fixture.platform Fixture.twice)
         (host := Fixture.lenient) [] "token" Demo.env).1
      = (Normal tt, server').
Proof.
  assert (∀ s name uri callback,
            (server_resource (McpServer := Fixture.lenient) s name uri
               callback).1 = Normal tt) as Hok by reflexivity.
  split; [exact Hok|].
  exact (registerResources_never_fails_on_accepting_host
           (platform := Fixture.platform Fixture.twice)
           (host := Fixture.lenient) [] "token" Demo.env Hok).
Defined.

(** X18.  A registration the host refuses is not caught: the error
    reaches the caller of [registerResources], the descriptors registered
    before it stay registered, and the ones after it are never offered to
    the host. *)
Theorem registerResources_stops_at_refusal
    {platform : Platform} {S : Type} {host : McpServer S}
    (server s1 s2 : S) (accessToken : string) (env : Env)
    (before after : list FileResource.t) (r : FileResource.t) (e : thrown) :
  result (createFileResources accessToken env) = Normal (before ++ r :: after) →
  for_of before
    (λ resource s,
       server_resource s (FileResource.name resource)
         (FileResource.uri resource) (FileResource.handler resource))
    server = (Normal tt, s1) →
  server_resource s1 (FileResource.name r) (FileResource.uri r)
    (FileResource.handler r) = (Throw e, s2) →
  (registerResources server accessToken env).1 = (Throw e, s2).
Proof.
  intros Hres Hbefore Hrefuse.
  rewrite (registerResources_on_descriptors server accessToken env _ Hres).
  rewrite (for_of_app _ _ _ _ _ Hbefore). simpl. by rewrite Hrefuse.
Qed.

Lemma registerResources_stops_at_refusal_witness :
  (registerResources (platform := Fixture.platform Fixture.twice)
     (host := Fixture.strict) [] "token" Demo.env).1
  = (Throw (ErrorObject "Resource github://file/a.md is already registered"),
     [("a.md", "github://file/a.md")]).
Proof.
  apply (registerResources_stops_at_refusal
           (platform := Fixture.platform Fixture.twice) (host := Fixture.strict)
           [] [("a.md", "github://file/a.md")] [("a.md", "github://file/a.md")]
           "token" Demo.env
           [FileResource.new "token" "octo" "demo" "a.md" "a.md" 1]
           [FileResource.new "token" "octo" "demo" "b.md" "b.md" 3]
           (FileResource.new "token" "octo" "demo" "a.md" "a.md" 2)).
  - vm_compute. reflexivity.
  - reflexivity.
  - reflexivity.
Defined.
